(** * The breakpoint engine of the Lua debug adapter (src/debugger/breakpoint.cpp)

    A shallow embedding of [vscode::breakpoint] and of the helpers of its
    translation unit, followed by the properties of the engine: condition and
    hit-count evaluation, log-message interpolation, the per-line fast table
    and the function cache. *)

From Stdlib Require Import ZArith Lia Ascii String.
From stdpp Require Import base tactics option list strings pretty gmap fin_maps.

Local Open Scope Z_scope.

(** ** Collaborators

    The guest VM, the expression evaluator (debugger/evaluate.h), the path
    converter and the debug-info calls of the Lua C API are not part of this
    translation unit.  They are the fields of an interface, and every
    definition below is parametric in it. *)

(** A value on the Lua stack, as far as this file inspects one: its type tag,
    its truth value and its conversion by [lua_tolstring].  A number carries
    the text the VM converts it to. *)
Inductive lua_value : Type :=
  | LuaNil
  | LuaBoolean (b : bool)
  | LuaNumber (text : string)
  | LuaString (s : string)
  | LuaObject.

Inductive lua_tag : Type :=
  LUA_TNIL | LUA_TBOOLEAN | LUA_TNUMBER | LUA_TSTRING | LUA_TOBJECT.

#[global] Instance lua_tag_eq_dec : EqDecision lua_tag.
Proof. solve_decision. Defined.

Definition lua_type (v : lua_value) : lua_tag :=
  match v with
  | LuaNil => LUA_TNIL
  | LuaBoolean _ => LUA_TBOOLEAN
  | LuaNumber _ => LUA_TNUMBER
  | LuaString _ => LUA_TSTRING
  | LuaObject => LUA_TOBJECT
  end.

Definition lua_toboolean (v : lua_value) : bool :=
  match v with
  | LuaNil | LuaBoolean false => false
  | _ => true
  end.

(** [lua_tolstring] yields NULL, and length 0, for a value that is neither
    a string nor a number. *)
Definition lua_tolstring (v : lua_value) : option string :=
  match v with
  | LuaString s => Some s
  | LuaNumber text => Some text
  | _ => None
  end.

(** What a call of [evaluate(L, ar, script, nresult)] does: it returns true
    and leaves [nresult] results on the stack, or returns false and leaves an
    error message, or a C++ exception leaves the call. *)
Inductive eval_outcome : Type :=
  | EvalOk (results : list lua_value)
  | EvalError (message : string)
  | EvalThrow (what : string).

Class Host : Type := {
  lua_State : Type;
  lua_Debug : Type;
  (** debugger/evaluate.h; guest code runs, so the VM state is threaded. *)
  evaluate : lua_State → lua_Debug → string → eval_outcome * lua_State;
  (** [lua_getinfo(L, "f", ar)] followed by [lua_topointer]: the address of
      the running function, [None] when [lua_getinfo] returns 0. *)
  lua_getinfo_f : lua_State → lua_Debug → option Z;
  (** [lua_getinfo(L, "S", ar)]: the chunk name [ar->source] and the address
      of that C string, [None] when [lua_getinfo] returns 0. *)
  lua_getinfo_S : lua_State → lua_Debug → option (string * Z);
  (** [pathconvert::get(source, clientpath)]: the [bool] it returns and what
      it leaves in [clientpath]. *)
  pathconvert_get : string → bool * string;
}.

(** How a C++ call ends: with a value, or with a [std::exception] whose
    [what()] is recorded. *)
Inductive completion (A : Type) : Type :=
  | Normal (a : A)
  | Thrown (what : string).
Arguments Normal {A} a.
Arguments Thrown {A} what.

Definition empty (s : string) : bool :=
  match s with
  | EmptyString => true
  | String _ _ => false
  end.

(** ** Evaluation helpers *)

Section Evaluation.
Context `{Host}.

Definition evaluate_isok (L : lua_State) (ar : lua_Debug) (script : string)
  : completion bool * lua_State :=
  match evaluate L ar ("return " +:+ script) with
  | (EvalThrow what, L') => (Thrown what, L')
  | (EvalError _, L') => (Normal false, L')
  | (EvalOk results, L') =>
      match results with
      | v :: _ =>
          (Normal (bool_decide (lua_type v = LUA_TBOOLEAN) && lua_toboolean v), L')
      | [] => (Normal false, L')
      end
  end.

(** The string built from the NULL and the length 0 of [lua_tolstring] is
    taken to be the empty one. *)
Definition evaluate_getstr (L : lua_State) (ar : lua_Debug) (script : string)
  : completion string * lua_State :=
  match evaluate L ar ("return tostring(" +:+ script +:+ ")") with
  | (EvalThrow what, L') => (Thrown what, L')
  | (EvalError _, L') => (Normal "", L')
  | (EvalOk results, L') =>
      match results with
      | [] => (Normal "", L')
      | v :: _ => (Normal (default "" (lua_tolstring v)), L')
      end
  end.

End Evaluation.

(** ** The pattern [\{[^\}]*\}]

    [match_body s] matches [[^\}]*\}] at the start of [s]: the star is greedy
    and cannot cross a closing brace, so the match ends at the first one. *)
Fixpoint match_body (s : string) : option (string * string) :=
  match s with
  | EmptyString => None
  | String c rest =>
      if Ascii.eqb c "}"%char then Some (EmptyString, rest)
      else match match_body rest with
           | Some (inner, post) => Some (String c inner, post)
           | None => None
           end
  end.

(** [std::regex_search]: the pattern is tried at each position from the left;
    the result is the text before the match, the text between the braces, and
    the text after the match.  The search finds the match or finds none; a
    search that gives up for want of memory is not modelled. *)
Fixpoint regex_search (s : string) : option (string * string * string) :=
  match s with
  | EmptyString => None
  | String c rest =>
      match (if Ascii.eqb c "{"%char then match_body rest else None) with
      | Some (inner, post) => Some (EmptyString, inner, post)
      | None =>
          match regex_search rest with
          | Some (pre, inner, post) => Some (String c pre, inner, post)
          | None => None
          end
      end
  end.

Section Log.
Context `{Host}.

(** The [for] loop of [evaluate_log]; [it] is the text from the iterator to
    the end of [log].  Each round consumes a match, so [length log] rounds
    are enough; [None] is the loop cut short. *)
Fixpoint evaluate_log_loop (fuel : nat) (L : lua_State) (ar : lua_Debug)
    (it res : string) : option (completion string * lua_State) :=
  match regex_search it with
  | None => Some (Normal (res +:+ it), L)
  | Some (pre, inner, post) =>
      match fuel with
      | O => None
      | S fuel' =>
          match evaluate_getstr L ar inner with
          | (Thrown what, L') => Some (Thrown what, L')
          | (Normal str, L') =>
              evaluate_log_loop fuel' L' ar post ((res +:+ pre) +:+ str)
          end
      end
  end.

(** The [try] block of [evaluate_log].  The loop is never cut short with
    this fuel ([evaluate_log_loop_enough] below). *)
Definition evaluate_log_try (L : lua_State) (ar : lua_Debug) (log : string)
  : completion string * lua_State :=
  match evaluate_log_loop (String.length log) L ar log "" with
  | Some r => r
  | None => (Normal "", L)
  end.

(** [evaluate_log], with its [catch]. *)
Definition evaluate_log (L : lua_State) (ar : lua_Debug) (log : string)
  : string * lua_State :=
  match evaluate_log_try L ar log with
  | (Normal res, L') => (res, L')
  | (Thrown what, L') => (what, L')
  end.

End Log.

(** ** Breakpoints

    The members of a [rapidjson::Value] that [bp::bp] reads; [None] is a
    member the object does not have. *)
Record bp_info : Type := {
  condition : option string;
  hitCondition : option string;
  logMessage : option string;
}.

(** [struct bp].  Its declaration is in debugger/breakpoint.h, which is not
    among the sources: the members are the ones the constructor initialises,
    and [hit] is taken to have the type of the constructor's parameter,
    [int]. *)
Record bp : Type := {
  cond : string;
  hitcond : string;
  log : string;
  hit : Z;
}.

Definition newline : string := String "010"%char EmptyString.

(** [bp::bp(info, h)] *)
Definition bp_ctor (info : bp_info) (h : Z) : bp :=
  {| cond := default "" (condition info);
     hitcond := default "" (hitCondition info);
     log := match logMessage info with
            | Some message => message +:+ newline
            | None => ""
            end;
     hit := h |}.

Definition INT_MIN : Z := -2147483648.
Definition INT_MAX : Z := 2147483647.

(** A value brought back into the range of [int], two's complement; this
    is what [++] is taken to do at [INT_MAX]. *)
Definition int_wrap (z : Z) : Z := (z - INT_MIN) mod 2 ^ 32 + INT_MIN.

(** [bp.hit++] *)
Definition hit_incr (b : bp) : bp :=
  {| cond := cond b; hitcond := hitcond b; log := log b;
     hit := int_wrap (hit b + 1) |}.

(** [std::to_string(int)] *)
Definition to_string (z : Z) : string := pretty z.

(** [bp_source], a [std::map] from line to [bp].  A line is a [size_t]; the
    model has it as a natural number and leaves the width out: [add] makes
    the fast table one longer than the line, so a line near the end of the
    range of [size_t] has no fast table to be registered in. *)
Abbreviation bp_source := (gmap nat bp).

(** What a [bp_source*] points to: the table that [files_] or [memorys_]
    holds under a key. *)
Inductive source_key : Type :=
  | by_path (clientpath : string)
  | by_ref (sourceref : Z).

#[global] Instance source_key_eq_dec : EqDecision source_key.
Proof. solve_decision. Defined.

(** [struct bp_function], with the members its constructor initialises;
    [fn_bp] is the member [bp], null as [None]. *)
Record bp_function : Type := {
  clientpath : string;
  sourceref : Z;
  fn_bp : option source_key;
}.

(** Modelled from the spec: the declaration of [class breakpoint] is in
    debugger/breakpoint.h, which is not among the sources.  [files_] maps a
    client path to a table and [memorys_] a numeric handle to a table; paths
    are compared as strings.  [fast_table_] is the sequence of counters
    indexed by line, grown on demand; a counter is an integer, and [clear]
    is shown below to decrement none that is 0.  [functions_] maps the
    address of a function to its binding and is never evicted; [get] is
    its lookup and [put] its insertion. *)
Record breakpoint : Type := {
  files_ : gmap string bp_source;
  memorys_ : gmap Z bp_source;
  fast_table_ : list Z;
  functions_ : gmap Z bp_function;
}.

Definition set_files (this : breakpoint) (files : gmap string bp_source) :=
  {| files_ := files; memorys_ := memorys_ this;
     fast_table_ := fast_table_ this; functions_ := functions_ this |}.
Definition set_memorys (this : breakpoint) (memorys : gmap Z bp_source) :=
  {| files_ := files_ this; memorys_ := memorys;
     fast_table_ := fast_table_ this; functions_ := functions_ this |}.
Definition set_fast_table (this : breakpoint) (fast : list Z) :=
  {| files_ := files_ this; memorys_ := memorys_ this;
     fast_table_ := fast; functions_ := functions_ this |}.
Definition set_functions (this : breakpoint) (functions : gmap Z bp_function) :=
  {| files_ := files_ this; memorys_ := memorys_ this;
     fast_table_ := fast_table_ this; functions_ := functions |}.

(** [breakpoint::breakpoint] *)
Definition new_breakpoint : breakpoint :=
  {| files_ := ∅; memorys_ := ∅; fast_table_ := []; functions_ := ∅ |}.

(** [fast_table_[line]] where [line] is in range, 0 beyond the end. *)
Definition fast_at (fast : list Z) (line : nat) : Z := default 0 (fast !! line).

(** [breakpoint::clear()]; the function cache stays. *)
Definition clear (this : breakpoint) : breakpoint :=
  {| files_ := ∅; memorys_ := ∅; fast_table_ := []; functions_ := functions_ this |}.

(** [breakpoint::clear(bp_source&)], on the fast table and the table.  The
    decrements commute, so the order of the iteration is immaterial. *)
Definition clear_source (fast : list Z) (bps : bp_source) : list Z * bp_source :=
  (foldl (λ fast entry, alter (λ n, n - 1) entry.1 fast) fast (map_to_list bps), ∅).

(** [breakpoint::clear(const std::string&)] *)
Definition clear_path (this : breakpoint) (client_path : string) : breakpoint :=
  match files_ this !! client_path with
  | Some bps =>
      let '(fast, bps') := clear_source (fast_table_ this) bps in
      set_fast_table (set_files this (<[client_path := bps']> (files_ this))) fast
  | None => this
  end.

(** [breakpoint::clear(intptr_t)] *)
Definition clear_ref (this : breakpoint) (source_ref : Z) : breakpoint :=
  match memorys_ this !! source_ref with
  | Some bps =>
      let '(fast, bps') := clear_source (fast_table_ this) bps in
      set_fast_table (set_memorys this (<[source_ref := bps']> (memorys_ this))) fast
  | None => this
  end.

(** [breakpoint::get_bp(const std::string&)]: [files_[clientpath]] makes an
    empty table where there is none. *)
Definition get_bp_path (this : breakpoint) (clientpath : string)
  : bp_source * breakpoint :=
  match files_ this !! clientpath with
  | Some bps => (bps, this)
  | None => (∅, set_files this (<[clientpath := ∅]> (files_ this)))
  end.

(** [breakpoint::get_bp(intptr_t)] *)
Definition get_bp_ref (this : breakpoint) (sourceref : Z)
  : bp_source * breakpoint :=
  match memorys_ this !! sourceref with
  | Some bps => (bps, this)
  | None => (∅, set_memorys this (<[sourceref := ∅]> (memorys_ this)))
  end.

(** [breakpoint::add(bp_source&, size_t, rapidjson::Value const&)] *)
Definition add_source (fast : list Z) (bps : bp_source) (line : nat)
    (bpinfo : bp_info) : list Z * bp_source :=
  match bps !! line with
  | Some old => (fast, <[line := bp_ctor bpinfo (hit old)]> bps)
  | None =>
      let bps' := <[line := bp_ctor bpinfo 0]> bps in
      let fast' :=
        if bool_decide (length fast ≤ line)%nat
        then resize (line + 1) 0 fast
        else fast in
      (alter (λ n, n + 1) line fast', bps')
  end.

(** [breakpoint::add(const std::string&, ...)] *)
Definition add_path (this : breakpoint) (client_path : string) (line : nat)
    (info : bp_info) : breakpoint :=
  let '(bps, this1) := get_bp_path this client_path in
  let '(fast, bps') := add_source (fast_table_ this1) bps line info in
  set_fast_table (set_files this1 (<[client_path := bps']> (files_ this1))) fast.

(** [breakpoint::add(intptr_t, ...)] *)
Definition add_ref (this : breakpoint) (source_ref : Z) (line : nat)
    (info : bp_info) : breakpoint :=
  let '(bps, this1) := get_bp_ref this source_ref in
  let '(fast, bps') := add_source (fast_table_ this1) bps line info in
  set_fast_table (set_memorys this1 (<[source_ref := bps']> (memorys_ this1))) fast.

(** The table a key stands for, empty where the store has none. *)
Definition table (this : breakpoint) (key : source_key) : bp_source :=
  match key with
  | by_path clientpath => default ∅ (files_ this !! clientpath)
  | by_ref sourceref => default ∅ (memorys_ this !! sourceref)
  end.

(** The overloads of [add] and of [clear] for a path and for a handle, by
    the key. *)
Definition add (this : breakpoint) (key : source_key) (line : nat)
    (info : bp_info) : breakpoint :=
  match key with
  | by_path client_path => add_path this client_path line info
  | by_ref source_ref => add_ref this source_ref line info
  end.

Definition clear_key (this : breakpoint) (key : source_key) : breakpoint :=
  match key with
  | by_path client_path => clear_path this client_path
  | by_ref source_ref => clear_ref this source_ref
  end.

(** ** The per-line test and the function cache *)

Section Engine.
Context `{Host}.

(** What a call of [has] leaves behind: how it ended, the table [src] points
    to (whose [bp] it updates in place), what went to [dbg_->output] as
    channel and text, and the VM state. *)
Record has_result : Type := {
  has_ret : completion bool;
  has_src : bp_source;
  has_output : list (string * string);
  has_L : lua_State;
}.

(** [breakpoint::has] *)
Definition has (this : breakpoint) (src : bp_source) (line : nat)
    (L : lua_State) (ar : lua_Debug) : has_result :=
  if bool_decide (length (fast_table_ this) ≤ line)%nat
     || bool_decide (fast_at (fast_table_ this) line = 0)
  then {| has_ret := Normal false; has_src := src; has_output := []; has_L := L |}
  else
    match src !! line with
    | None =>
        {| has_ret := Normal false; has_src := src; has_output := []; has_L := L |}
    | Some b =>
        match (if empty (cond b) then (Normal true, L)
               else evaluate_isok L ar (cond b)) with
        | (Thrown what, L1) =>
            {| has_ret := Thrown what; has_src := src; has_output := []; has_L := L1 |}
        | (Normal false, L1) =>
            {| has_ret := Normal false; has_src := src; has_output := []; has_L := L1 |}
        | (Normal true, L1) =>
            let b' := hit_incr b in
            let src' := <[line := b']> src in
            match (if empty (hitcond b') then (Normal true, L1)
                   else evaluate_isok L1 ar
                          (to_string (hit b') +:+ " " +:+ hitcond b')) with
            | (Thrown what, L2) =>
                {| has_ret := Thrown what; has_src := src'; has_output := [];
                   has_L := L2 |}
            | (Normal false, L2) =>
                {| has_ret := Normal false; has_src := src'; has_output := [];
                   has_L := L2 |}
            | (Normal true, L2) =>
                if empty (log b')
                then {| has_ret := Normal true; has_src := src';
                        has_output := []; has_L := L2 |}
                else
                  let '(res, L3) := evaluate_log L2 ar (log b') in
                  {| has_ret := Normal false; has_src := src';
                     has_output := [("stdout", res)]; has_L := L3 |}
            end
        end
    end.

(** [ar->source[0] == c], on a C string: the first character of an empty
    string is the terminator. *)
Definition starts_with (source : string) (c : ascii) : bool :=
  match source with
  | String c0 _ => Ascii.eqb c0 c
  | EmptyString => false
  end.

(** [bp_function::bp_function] *)
Definition bp_function_ctor (this : breakpoint) (L : lua_State) (ar : lua_Debug)
  : bp_function * breakpoint :=
  match lua_getinfo_S L ar with
  | None => ({| clientpath := ""; sourceref := 0; fn_bp := None |}, this)
  | Some (source, address) =>
      if starts_with source "@" || starts_with source "="
      then
        let '(found, path) := pathconvert_get source in
        if found
        then ({| clientpath := path; sourceref := 0; fn_bp := Some (by_path path) |},
              (get_bp_path this path).2)
        else ({| clientpath := path; sourceref := 0; fn_bp := None |}, this)
      else
        ({| clientpath := ""; sourceref := address;
            fn_bp := Some (by_ref address) |},
         (get_bp_ref this address).2)
  end.

(** [breakpoint::get_function]; [None] is the null pointer. *)
Definition get_function (this : breakpoint) (L : lua_State) (ar : lua_Debug)
  : option bp_function * breakpoint :=
  match lua_getinfo_f L ar with
  | None => (None, this)
  | Some f =>
      let '(func, this') :=
        match functions_ this !! f with
        | Some func => (func, this)
        | None =>
            let '(func, this1) := bp_function_ctor this L ar in
            (func, set_functions this1 (<[f := func]> (functions_ this1)))
        end in
      (match fn_bp func with Some _ => Some func | None => None end, this')
  end.

End Engine.


(** ** Vocabulary of the statements *)

(** Whether the character [c] occurs in [s]. *)
Fixpoint contains (c : ascii) (s : string) : bool :=
  match s with
  | EmptyString => false
  | String c0 rest => Ascii.eqb c0 c || contains c rest
  end.

(** A result with [s] put in front of its text, and with [t] put behind it;
    an exception stays what it is. *)
Definition prepend {S : Type} (s : string) (r : completion string * S)
  : completion string * S :=
  match r with
  | (Normal text, L) => (Normal (s +:+ text), L)
  | (Thrown what, L) => (Thrown what, L)
  end.

Definition extend {S : Type} (r : completion string * S) (t : string)
  : completion string * S :=
  match r with
  | (Normal text, L) => (Normal (text +:+ t), L)
  | (Thrown what, L) => (Thrown what, L)
  end.

(** Whether the results of an evaluation make a condition hold: there is a
    first result, it is a boolean, and it is true. *)
Definition holds (o : eval_outcome) : bool :=
  match o with
  | EvalOk (v :: _) => bool_decide (lua_type v = LUA_TBOOLEAN) && lua_toboolean v
  | _ => false
  end.

Section Stages.
Context `{Host}.

(** The two tests of [has] before the log message: the condition of [b],
    and the hit condition of [b] against its hit count. *)
Definition cond_stage (L : lua_State) (ar : lua_Debug) (b : bp)
  : completion bool * lua_State :=
  if empty (cond b) then (Normal true, L) else evaluate_isok L ar (cond b).

Definition hitcond_stage (L : lua_State) (ar : lua_Debug) (b : bp)
  : completion bool * lua_State :=
  if empty (hitcond b) then (Normal true, L)
  else evaluate_isok L ar (to_string (hit b) +:+ " " +:+ hitcond b).

End Stages.

(** What the protocol layer asks of the store. *)
Inductive request : Type :=
  | req_add (key : source_key) (line : nat) (info : bp_info)
  | req_clear (key : source_key)
  | req_clear_all.

Definition serve (this : breakpoint) (r : request) : breakpoint :=
  match r with
  | req_add key line info => add this key line info
  | req_clear key => clear_key this key
  | req_clear_all => clear this
  end.

(** The store after a sequence of requests, from a new one. *)
Definition serve_all (requests : list request) : breakpoint :=
  foldl serve new_breakpoint requests.

(** 1 when the table has a breakpoint at the line, 0 otherwise. *)
Definition at_line (bps : bp_source) (line : nat) : Z :=
  if decide (is_Some (bps !! line)) then 1 else 0.

(** The number of tables of one key space with a breakpoint at the line, and
    of both key spaces together. *)
Definition holders `{Countable K} (m : gmap K bp_source) (line : nat) : nat :=
  size (filter (λ entry, is_Some (entry.2 !! line)) m).

Definition tables_with (this : breakpoint) (line : nat) : nat :=
  (holders (files_ this) line + holders (memorys_ this) line)%nat.

(** The fast table counts, for every line, the tables with a breakpoint
    there. *)
Definition fast_counts (this : breakpoint) : Prop :=
  ∀ line, fast_at (fast_table_ this) line = Z.of_nat (tables_with this line).

(** ** A scripted host

    A host for running the engine on concrete inputs: the evaluator answers
    from a list of scripts and outcomes, the VM state is the list of scripts
    evaluated so far, and an activation record carries what the debug-info
    calls report for it. *)
Module Scripted.

Record frame : Type := {
  frame_function : option Z;
  frame_source : option (string * Z);
}.

Fixpoint answer (answers : list (string * eval_outcome)) (script : string)
  : eval_outcome :=
  match answers with
  | [] => EvalError "unknown script"
  | (s, outcome) :: rest =>
      if String.eqb s script then outcome else answer rest script
  end.

Definition host (answers : list (string * eval_outcome))
    (convert : string → bool * string) : Host :=
  {| lua_State := list string;
     lua_Debug := frame;
     evaluate L ar script := (answer answers script, L ++ [script]);
     lua_getinfo_f L ar := frame_function ar;
     lua_getinfo_S L ar := frame_source ar;
     pathconvert_get := convert |}.

(** Chunk names of files are the client path behind an [@]. *)
Definition strip_at (source : string) : bool * string :=
  match source with
  | String "@" path => (true, path)
  | _ => (false, "")
  end.

Definition no_frame : frame := {| frame_function := None; frame_source := None |}.

(** A function of the chunk foo.lua, and a function whose source the VM
    does not tell. *)
Definition frame_in_foo : frame :=
  {| frame_function := Some 1; frame_source := Some ("@foo.lua", 4096) |}.
Definition frame_without_source : frame :=
  {| frame_function := Some 7; frame_source := None |}.
Definition frame_seven_in_foo : frame :=
  {| frame_function := Some 7; frame_source := Some ("@foo.lua", 4096) |}.

(** Contexts: [x] is 42; [x] is 0; the comparisons of the first two hit
    counts with 2; [y] cannot be evaluated. *)
Definition x_is_42 : Host :=
  host [("return tostring(x)", EvalOk [LuaString "42"]);
        ("return x>1", EvalOk [LuaBoolean true])] strip_at.
Definition x_is_0 : Host :=
  host [("return tostring(x)", EvalOk [LuaString "0"]);
        ("return x>1", EvalOk [LuaBoolean false])] strip_at.
Definition counting : Host :=
  host [("return 1 >=2", EvalOk [LuaBoolean false]);
        ("return 2 >=2", EvalOk [LuaBoolean true])] strip_at.
Definition y_fails : Host :=
  host [("return tostring(y)", EvalError "attempt to index a nil value")]
       strip_at.

Definition foo : source_key := by_path "foo.lua".
Definition bar : source_key := by_ref 4096.

Definition with_log (message : string) : bp_info :=
  {| condition := None; hitCondition := None; logMessage := Some message |}.
Definition with_condition (condition : string) : bp_info :=
  {| condition := Some condition; hitCondition := None; logMessage := None |}.
Definition with_hit_condition (hitCondition : string) : bp_info :=
  {| condition := None; hitCondition := Some hitCondition; logMessage := None |}.
Definition plain : bp_info :=
  {| condition := None; hitCondition := None; logMessage := None |}.

(** A store with one breakpoint, at line 5 of foo.lua. *)
Definition store (info : bp_info) : breakpoint := add new_breakpoint foo 5 info.

(** Requests that leave breakpoints at line 5 of two sources, and one more
    at line 9 of the first. *)
Definition two_sources : list request :=
  [req_add foo 5 plain; req_add bar 5 plain; req_add foo 9 plain].

End Scripted.

(** The store after a write through a [bp_source*]: [has] updates the table
    it is given in place, and that table is the one the store holds under
    the key. *)
Definition write_table (this : breakpoint) (key : source_key) (bps : bp_source)
  : breakpoint :=
  match key with
  | by_path path => set_files this (<[path := bps]> (files_ this))
  | by_ref ref => set_memorys this (<[ref := bps]> (memorys_ this))
  end.

(** Whether the store holds a table under the key, and whether every bound
    binding in the cache stands for a table the store holds. *)
Definition present (this : breakpoint) (key : source_key) : Prop :=
  match key with
  | by_path path => is_Some (files_ this !! path)
  | by_ref ref => is_Some (memorys_ this !! ref)
  end.

Definition bindings_alive (this : breakpoint) : Prop :=
  ∀ f func key,
    functions_ this !! f = Some func → fn_bp func = Some key → present this key.

(** More inputs for the scripted host: an evaluator that ends in an
    exception, a function of a chunk whose name the path converter does not
    know, and a function of a chunk in memory. *)
Module ScriptedMore.
Import Scripted.

Definition z_throws : Host :=
  host [("return tostring(z)", EvalThrow "bad allocation")] strip_at.

Definition frame_unconverted : frame :=
  {| frame_function := Some 2; frame_source := Some ("=stdin", 8192) |}.
Definition frame_in_memory : frame :=
  {| frame_function := Some 3; frame_source := Some ("return 1", 4096) |}.

(** The store of [two_sources] after a hit at line 5 of the chunk in
    memory and after the resolution of a function of foo.lua. *)
Definition two_sources_hit : breakpoint :=
  (get_function (H := x_is_42)
     (write_table (serve_all two_sources) bar
        (has_src (has (H := x_is_42) (serve_all two_sources)
                    (table (serve_all two_sources) bar) 5 [] no_frame)))
     [] frame_in_foo).2.

End ScriptedMore.

(** * Properties *)

(** ** Strings *)

Lemma append_cons (c : ascii) (s t : string) :
  String c s +:+ t = String c (s +:+ t).
Proof. reflexivity. Qed.

Lemma append_nil_l (s : string) : "" +:+ s = s.
Proof. reflexivity. Qed.

Lemma append_assoc (s1 s2 s3 : string) : (s1 +:+ s2) +:+ s3 = s1 +:+ (s2 +:+ s3).
Proof.
  induction s1 as [|c s1 IH]; [done |]. by rewrite !append_cons, IH.
Qed.

Lemma append_nil_r (s : string) : s +:+ "" = s.
Proof. induction s as [|c s IH]; [done |]. by rewrite append_cons, IH. Qed.

Lemma length_append (s1 s2 : string) :
  String.length (s1 +:+ s2) = (String.length s1 + String.length s2)%nat.
Proof.
  induction s1 as [|c s1 IH]; [done |]. rewrite append_cons. simpl. by rewrite IH.
Qed.

Lemma contains_append (c : ascii) (s1 s2 : string) :
  contains c (s1 +:+ s2) = contains c s1 || contains c s2.
Proof.
  induction s1 as [|c1 s1 IH]; [done |].
  rewrite append_cons. simpl. by rewrite IH, orb_assoc.
Qed.

(** ** The pattern *)

Lemma match_body_Some (s inner post : string) :
  match_body s = Some (inner, post) →
  s = inner +:+ String "}" post ∧ contains "}" inner = false.
Proof.
  revert inner post. induction s as [|c s IH]; intros inner post; simpl; [done |].
  destruct (Ascii.eqb c "}") eqn:Hc.
  - intros [= <- <-]. apply Ascii.eqb_eq in Hc as ->. done.
  - destruct (match_body s) as [[inner' post']|]; [| done].
    intros [= <- <-]. destruct (IH _ _ eq_refl) as [-> Hin].
    simpl. by rewrite Hc, Hin.
Qed.

Lemma match_body_None (s : string) :
  match_body s = None ↔ contains "}" s = false.
Proof.
  induction s as [|c s IH]; simpl; [done |].
  destruct (Ascii.eqb c "}"); simpl; [done |].
  destruct (match_body s) as [[inner post]|]; [| done].
  split; [done |]. intros Hs. by apply IH in Hs.
Qed.

Lemma match_body_append (s t : string) :
  contains "}" t = false →
  match_body (s +:+ t) =
    match match_body s with
    | Some (inner, post) => Some (inner, post +:+ t)
    | None => None
    end.
Proof.
  intros Ht. induction s as [|c s IH].
  - rewrite append_nil_l. simpl. by apply match_body_None.
  - rewrite append_cons. simpl. destruct (Ascii.eqb c "}"); [done |].
    rewrite IH. by destruct (match_body s) as [[inner post]|].
Qed.

Lemma regex_search_Some (s pre inner post : string) :
  regex_search s = Some (pre, inner, post) →
  s = pre +:+ String "{" (inner +:+ String "}" post)
  ∧ contains "{" pre = false ∧ contains "}" inner = false.
Proof.
  revert pre inner post.
  induction s as [|c s IH]; intros pre inner post; simpl; [done |].
  destruct (Ascii.eqb c "{") eqn:Hc.
  - destruct (match_body s) as [[inner' post']|] eqn:Hbody.
    + intros [= <- <- <-]. apply Ascii.eqb_eq in Hc as ->.
      by destruct (match_body_Some _ _ _ Hbody) as [-> ?].
    + destruct (regex_search s) as [[[pre' inner'] post']|] eqn:Hs; [| done].
      destruct (IH _ _ _ eq_refl) as (-> & _ & _).
      apply match_body_None in Hbody.
      rewrite contains_append in Hbody. simpl in Hbody.
      rewrite contains_append in Hbody. simpl in Hbody.
      by rewrite !orb_true_r in Hbody.
  - destruct (regex_search s) as [[[pre' inner'] post']|]; [| done].
    intros [= <- <- <-]. destruct (IH _ _ _ eq_refl) as (-> & Hpre & Hin).
    simpl. by rewrite Hc, Hpre.
Qed.

(** There is no match exactly when no opening brace has a closing brace
    somewhere after it. *)
Lemma regex_search_None (s : string) :
  regex_search s = None ↔
  ∀ pre tail, s = pre +:+ String "{" tail → contains "}" tail = false.
Proof.
  induction s as [|c s IH]; simpl.
  - split; [| done]. intros _ [|? ?] tail; simpl; done.
  - destruct (Ascii.eqb c "{") eqn:Hc.
    + destruct (match_body s) as [[inner post]|] eqn:Hbody.
      * split; [done |]. intros Hall.
        apply Ascii.eqb_eq in Hc as ->.
        specialize (Hall "" s eq_refl).
        apply match_body_None in Hall. congruence.
      * apply match_body_None in Hbody.
        destruct (regex_search s) as [[[pre inner] post]|] eqn:Hs.
        -- apply regex_search_Some in Hs as (-> & _ & _).
           rewrite contains_append in Hbody. simpl in Hbody.
           rewrite contains_append in Hbody. simpl in Hbody.
           by rewrite !orb_true_r in Hbody.
        -- split; [| done]. intros _ pre tail Heq.
           destruct pre as [|c' pre]; simpl in Heq.
           ++ by injection Heq as _ <-.
           ++ injection Heq as _ ->.
              rewrite contains_append in Hbody. simpl in Hbody.
              by apply orb_false_elim in Hbody as [_ ?].
    + destruct (regex_search s) as [[[pre inner] post]|] eqn:Hs.
      * split; [done |]. intros Hall.
        assert (Some (pre, inner, post) = None) as Hnone; [| done].
        apply IH. intros pre' tail ->. by apply (Hall (String c pre')).
      * split; [| done]. intros _ pre tail Heq.
        destruct pre as [|c' pre]; simpl in Heq.
        -- injection Heq as -> _. by rewrite Ascii.eqb_refl in Hc.
        -- injection Heq as _ ->. destruct IH as [IH _]. by apply (IH eq_refl pre).
Qed.

Lemma regex_search_append (s t : string) :
  contains "}" t = false →
  regex_search (s +:+ t) =
    match regex_search s with
    | Some (pre, inner, post) => Some (pre, inner, post +:+ t)
    | None => None
    end.
Proof.
  intros Ht. induction s as [|c s IH].
  - rewrite append_nil_l. simpl. apply regex_search_None. intros pre tail ->.
    rewrite contains_append in Ht. simpl in Ht.
    by apply orb_false_elim in Ht as [_ ?].
  - rewrite append_cons. simpl. rewrite IH, match_body_append by done.
    destruct (Ascii.eqb c "{").
    + destruct (match_body s) as [[inner post]|]; [done |].
      by destruct (regex_search s) as [[[pre inner] post]|].
    + by destruct (regex_search s) as [[[pre inner] post]|].
Qed.

(** A brace pair with no opening brace before it and no closing brace in it
    is the match. *)
Lemma regex_search_intro (pre inner post : string) :
  contains "{" pre = false →
  contains "}" inner = false →
  regex_search (pre +:+ String "{" (inner +:+ String "}" post)) =
    Some (pre, inner, post).
Proof.
  intros Hpre Hinner.
  assert (match_body (inner +:+ String "}" post) = Some (inner, post)) as Hbody.
  { clear Hpre. induction inner as [|c inner IH].
    - done.
    - rewrite append_cons. simpl in *.
      apply orb_false_elim in Hinner as [-> Hinner]. by rewrite IH. }
  induction pre as [|c pre IH].
  - rewrite append_nil_l. simpl. by rewrite Hbody.
  - rewrite append_cons. simpl in *.
    apply orb_false_elim in Hpre as [-> Hpre]. by rewrite IH.
Qed.

Lemma regex_search_length (s pre inner post : string) :
  regex_search s = Some (pre, inner, post) →
  (String.length post < String.length s)%nat.
Proof.
  intros (-> & _ & _)%regex_search_Some.
  rewrite length_append. simpl. rewrite length_append. simpl. lia.
Qed.

(** ** The interpolation loop *)

Section LogFacts.
Context `{Host}.

Lemma prepend_prepend {S : Type} (s1 s2 : string) (r : completion string * S) :
  prepend s1 (prepend s2 r) = prepend (s1 +:+ s2) r.
Proof. destruct r as [[text|what] L]; simpl; [| done]. by rewrite append_assoc. Qed.

Lemma prepend_nil {S : Type} (r : completion string * S) : prepend "" r = r.
Proof. by destruct r as [[text|what] L]. Qed.

Lemma prepend_extend {S : Type} (s t : string) (r : completion string * S) :
  extend (prepend s r) t = prepend s (extend r t).
Proof. destruct r as [[text|what] L]; simpl; [| done]. by rewrite append_assoc. Qed.

(** The accumulator of the loop is a prefix of its result. *)
Lemma evaluate_log_loop_res (fuel : nat) (L : lua_State) (ar : lua_Debug)
    (it res : string) :
  evaluate_log_loop fuel L ar it res =
  prepend res <$> evaluate_log_loop fuel L ar it "".
Proof.
  revert L it res. induction fuel as [|fuel IH]; intros L it res; simpl;
    destruct (regex_search it) as [[[pre inner] post]|]; try done.
  destruct (evaluate_getstr L ar inner) as [[str|what] L']; [| done].
  rewrite IH, (IH _ _ ("" +:+ pre +:+ str)), <- option_fmap_compose.
  apply option_fmap_ext. intros r. simpl.
  by rewrite prepend_prepend, append_nil_l, append_assoc.
Qed.

(** The loop ends: with fuel for the length of the text it is not cut
    short, and its result is the same for any such fuel. *)
Lemma evaluate_log_loop_enough (fuel : nat) (L : lua_State) (ar : lua_Debug)
    (it res : string) :
  (String.length it ≤ fuel)%nat →
  ∃ r, ∀ fuel', (String.length it ≤ fuel')%nat →
         evaluate_log_loop fuel' L ar it res = Some r.
Proof.
  revert L it res. induction fuel as [|fuel IH]; intros L it res Hlen.
  - destruct it as [|c it]; [| simpl in Hlen; lia].
    eexists. intros [|fuel'] _; reflexivity.
  - destruct (regex_search it) as [[[pre inner] post]|] eqn:Hsearch.
    + pose proof (regex_search_length _ _ _ _ Hsearch) as Hpost.
      destruct (evaluate_getstr L ar inner) as [[str|what] L'] eqn:Hstr.
      * destruct (IH L' post ((res +:+ pre) +:+ str)) as [r Hr]; [lia |].
        exists r. intros [|fuel'] Hfuel'; [lia |].
        simpl. rewrite Hsearch, Hstr. apply Hr. lia.
      * eexists. intros [|fuel'] Hfuel'; [lia |].
        simpl. by rewrite Hsearch, Hstr.
    + eexists. intros [|fuel'] _; simpl; by rewrite Hsearch.
Qed.

Lemma evaluate_log_loop_total (L : lua_State) (ar : lua_Debug) (log : string) :
  is_Some (evaluate_log_loop (String.length log) L ar log "").
Proof.
  destruct (evaluate_log_loop_enough (String.length log) L ar log "") as [r Hr];
    [done |].
  exists r. by apply Hr.
Qed.

(** One round of the loop, read off the [try] block. *)
Lemma evaluate_log_try_unfold (L : lua_State) (ar : lua_Debug) (log : string) :
  evaluate_log_try L ar log =
  match regex_search log with
  | None => (Normal log, L)
  | Some (pre, inner, post) =>
      match evaluate_getstr L ar inner with
      | (Thrown what, L') => (Thrown what, L')
      | (Normal str, L') => prepend (pre +:+ str) (evaluate_log_try L' ar post)
      end
  end.
Proof.
  unfold evaluate_log_try.
  destruct (regex_search log) as [[[pre inner] post]|] eqn:Hsearch.
  - pose proof (regex_search_length _ _ _ _ Hsearch) as Hpost.
    destruct (String.length log) as [|n] eqn:Hlen; [lia |].
    simpl. rewrite Hsearch.
    destruct (evaluate_getstr L ar inner) as [[str|what] L']; [| done].
    rewrite evaluate_log_loop_res.
    destruct (evaluate_log_loop_enough n L' ar post "") as [r Hr]; [lia |].
    rewrite (Hr n), (Hr (String.length post)) by lia.
    simpl. by rewrite append_nil_l.
  - destruct (String.length log); simpl; by rewrite Hsearch.
Qed.

(** Text without a closing brace behind a message stays as it is behind the
    interpolation of the message. *)
Lemma evaluate_log_try_append (L : lua_State) (ar : lua_Debug) (log t : string) :
  contains "}" t = false →
  evaluate_log_try L ar (log +:+ t) = extend (evaluate_log_try L ar log) t.
Proof.
  intros Ht. remember (String.length log) as n eqn:Hn.
  revert L log Hn. induction (lt_wf n) as [n _ IH]. intros L log ->.
  rewrite (evaluate_log_try_unfold L ar (log +:+ t)), (evaluate_log_try_unfold L ar log).
  rewrite regex_search_append by done.
  destruct (regex_search log) as [[[pre inner] post]|] eqn:Hsearch; [| done].
  destruct (evaluate_getstr L ar inner) as [[str|what] L']; [| done].
  rewrite (IH (String.length post)); [| by eapply regex_search_length | done].
  by rewrite prepend_extend.
Qed.

End LogFacts.

(** ** The per-line test *)

Lemma int_wrap_id (z : Z) : INT_MIN ≤ z ≤ INT_MAX → int_wrap z = z.
Proof.
  unfold int_wrap, INT_MIN, INT_MAX. intros Hz.
  rewrite Z.mod_small; lia.
Qed.

Lemma hit_incr_hit (b : bp) :
  INT_MIN ≤ hit b < INT_MAX → hit (hit_incr b) = hit b + 1.
Proof. intros Hb. simpl. apply int_wrap_id. lia. Qed.

Lemma holds_true (o : eval_outcome) :
  holds o = true ↔ ∃ rest, o = EvalOk (LuaBoolean true :: rest).
Proof.
  split.
  - destruct o as [[|v rest]| |]; simpl; try done.
    destruct v as [|[]| | |]; simpl; try done. by exists rest.
  - by intros [rest ->].
Qed.

Section HasFacts.
Context `{Host}.

Lemma evaluate_isok_outcome (L L' : lua_State) (ar : lua_Debug)
    (script : string) (o : eval_outcome) :
  evaluate L ar ("return " +:+ script) = (o, L') →
  evaluate_isok L ar script =
    (match o with EvalThrow what => Thrown what | _ => Normal (holds o) end, L').
Proof.
  unfold evaluate_isok. intros ->. by destruct o as [[|v rest]| |].
Qed.

Lemma evaluate_getstr_outcome (L L' : lua_State) (ar : lua_Debug)
    (script : string) (o : eval_outcome) :
  evaluate L ar ("return tostring(" +:+ script +:+ ")") = (o, L') →
  evaluate_getstr L ar script =
    (match o with
     | EvalThrow what => Thrown what
     | EvalError _ | EvalOk [] => Normal ""
     | EvalOk (v :: _) => Normal (default "" (lua_tolstring v))
     end, L').
Proof.
  unfold evaluate_getstr. intros ->. by destruct o as [[|v rest]| |].
Qed.

(** [has] behind its gate, by what the two tests come to. *)
Lemma has_open (this : breakpoint) (src : bp_source) (line : nat)
    (L : lua_State) (ar : lua_Debug) (b : bp) :
  (line < length (fast_table_ this))%nat →
  fast_at (fast_table_ this) line ≠ 0 →
  src !! line = Some b →
  has this src line L ar =
    match cond_stage L ar b with
    | (Thrown what, L1) =>
        {| has_ret := Thrown what; has_src := src; has_output := []; has_L := L1 |}
    | (Normal false, L1) =>
        {| has_ret := Normal false; has_src := src; has_output := []; has_L := L1 |}
    | (Normal true, L1) =>
        let src' := <[line := hit_incr b]> src in
        match hitcond_stage L1 ar (hit_incr b) with
        | (Thrown what, L2) =>
            {| has_ret := Thrown what; has_src := src'; has_output := [];
               has_L := L2 |}
        | (Normal false, L2) =>
            {| has_ret := Normal false; has_src := src'; has_output := [];
               has_L := L2 |}
        | (Normal true, L2) =>
            if empty (log b)
            then {| has_ret := Normal true; has_src := src'; has_output := [];
                    has_L := L2 |}
            else {| has_ret := Normal false; has_src := src';
                    has_output := [("stdout", (evaluate_log L2 ar (log b)).1)];
                    has_L := (evaluate_log L2 ar (log b)).2 |}
        end
    end.
Proof.
  intros Hlen Hfast Hb. unfold has.
  rewrite bool_decide_eq_false_2 by lia.
  rewrite bool_decide_eq_false_2 by done.
  simpl. rewrite Hb. unfold cond_stage, hitcond_stage. simpl.
  destruct (if empty (cond b) then _ else _) as [[[|]|what] L1]; try done.
  destruct (if empty (hitcond b) then _ else _) as [[[|]|what] L2]; try done.
  destruct (empty (log b)); [done |].
  by destruct (evaluate_log L2 ar (log b)).
Qed.

(** A line the gate rejects, or one the table does not hold, is answered
    with false and nothing else happens. *)
Lemma has_closed (this : breakpoint) (src : bp_source) (line : nat)
    (L : lua_State) (ar : lua_Debug) :
  fast_at (fast_table_ this) line = 0 ∨ src !! line = None →
  has this src line L ar =
    {| has_ret := Normal false; has_src := src; has_output := []; has_L := L |}.
Proof.
  intros Hclosed. unfold has.
  destruct (bool_decide (length (fast_table_ this) ≤ line)%nat); [done |].
  destruct Hclosed as [Hfast | Hsrc].
  - by rewrite bool_decide_eq_true_2.
  - rewrite Hsrc. by destruct (bool_decide _).
Qed.

(** A logpoint that passes both tests puts one text on [stdout], the result
    of [evaluate_log] on the stored message, and does not pause. *)
Lemma has_logpoint (this : breakpoint) (src : bp_source) (line : nat)
    (L L1 L2 : lua_State) (ar : lua_Debug) (b : bp) :
  (line < length (fast_table_ this))%nat →
  fast_at (fast_table_ this) line ≠ 0 →
  src !! line = Some b →
  cond_stage L ar b = (Normal true, L1) →
  hitcond_stage L1 ar (hit_incr b) = (Normal true, L2) →
  empty (log b) = false →
  has this src line L ar =
    {| has_ret := Normal false;
       has_src := <[line := hit_incr b]> src;
       has_output := [("stdout", (evaluate_log L2 ar (log b)).1)];
       has_L := (evaluate_log L2 ar (log b)).2 |}.
Proof.
  intros Hlen Hfast Hb Hcond Hhit Hlog.
  rewrite (has_open _ _ _ _ _ b) by done.
  by rewrite Hcond, Hhit, Hlog.
Qed.

End HasFacts.

Section HasClaims.
Context `{Host}.

(** C1, as amended.  A breakpoint built from a definition with a
    [logMessage] stores the message followed by a newline.  When [has]
    reaches it (the gate is open, the condition and the hit condition pass),
    it does not pause and puts exactly one text on channel stdout: the
    result of [evaluate_log] on the message followed by the newline.  When
    no exception ends the interpolation, that text is the interpolation of
    the message followed by one newline. *)
Theorem has_emits_log_message (this : breakpoint) (src : bp_source)
    (line : nat) (L L1 L2 : lua_State) (ar : lua_Debug) (info : bp_info)
    (h : Z) (message : string) :
  (line < length (fast_table_ this))%nat →
  fast_at (fast_table_ this) line ≠ 0 →
  src !! line = Some (bp_ctor info h) →
  logMessage info = Some message →
  cond_stage L ar (bp_ctor info h) = (Normal true, L1) →
  hitcond_stage L1 ar (hit_incr (bp_ctor info h)) = (Normal true, L2) →
  has_ret (has this src line L ar) = Normal false
  ∧ has_output (has this src line L ar) =
      [("stdout", (evaluate_log L2 ar (message +:+ newline)).1)]
  ∧ ∀ text L3, evaluate_log_try L2 ar message = (Normal text, L3) →
      has_output (has this src line L ar) = [("stdout", text +:+ newline)]
      ∧ has_L (has this src line L ar) = L3.
Proof.
  intros Hlen Hfast Hb Hmsg Hcond Hhit.
  assert (log (bp_ctor info h) = message +:+ newline) as Hlog.
  { simpl. by rewrite Hmsg. }
  assert (empty (log (bp_ctor info h)) = false) as Hne.
  { rewrite Hlog. by destruct message. }
  rewrite (has_logpoint this src line L L1 L2 ar _ Hlen Hfast Hb Hcond Hhit Hne).
  rewrite Hlog. simpl. split_and!; [done | done |].
  intros text L3 Htry. unfold evaluate_log.
  rewrite evaluate_log_try_append by done. by rewrite Htry.
Qed.

(** C4, as amended.  When the evaluator reports a failure for a segment
    (it returns false), the segment contributes no text and the
    interpolation goes on with the text behind it; only an exception ends
    the interpolation, and its description is then the whole result.  A
    logpoint that [has] reaches does not pause and puts exactly one text on
    stdout, whatever the interpolation met. *)
Theorem evaluate_log_failure (L L1 : lua_State) (ar : lua_Debug)
    (pre expr post message : string) :
  contains "{" pre = false →
  contains "}" expr = false →
  evaluate L ar ("return tostring(" +:+ expr +:+ ")") = (EvalError message, L1) →
  evaluate_log_try L ar (pre +:+ String "{" (expr +:+ String "}" post)) =
    prepend pre (evaluate_log_try L1 ar post)
  ∧ (∀ L0 log what L',
       evaluate_log_try L0 ar log = (Thrown what, L') →
       evaluate_log L0 ar log = (what, L'))
  ∧ (∀ this src line b L0 L2 L3,
       (line < length (fast_table_ this))%nat →
       fast_at (fast_table_ this) line ≠ 0 →
       src !! line = Some b →
       cond_stage L0 ar b = (Normal true, L2) →
       hitcond_stage L2 ar (hit_incr b) = (Normal true, L3) →
       empty (log b) = false →
       has_ret (has this src line L0 ar) = Normal false
       ∧ ∃ text, has_output (has this src line L0 ar) = [("stdout", text)]).
Proof.
  intros Hpre Hexpr Heval. split_and!.
  - rewrite evaluate_log_try_unfold, (regex_search_intro pre expr post) by done.
    rewrite (evaluate_getstr_outcome _ _ _ _ _ Heval).
    by rewrite append_nil_r.
  - intros L0 log what L' Htry. unfold evaluate_log. by rewrite Htry.
  - intros this src line b L0 L2 L3 Hlen Hfast Hb Hcond Hhit Hlog.
    rewrite (has_logpoint this src line L0 L2 L3 ar b) by done.
    simpl. eauto.
Qed.

(** C7.  With the gate open and a breakpoint at the line whose condition is
    not empty: when the evaluation of "return <condition>" fails, or its
    first result is not the boolean true, [has] returns false and leaves the
    table, so the hit count, as it was; when the first result is the boolean
    true the hit count is one more afterwards.  It is also one more when
    there is no condition. *)
Theorem has_condition (this : breakpoint) (src : bp_source) (line : nat)
    (L L1 : lua_State) (ar : lua_Debug) (b : bp) (o : eval_outcome) :
  (line < length (fast_table_ this))%nat →
  fast_at (fast_table_ this) line ≠ 0 →
  src !! line = Some b →
  INT_MIN ≤ hit b < INT_MAX →
  evaluate L ar ("return " +:+ cond b) = (o, L1) →
  (empty (cond b) = false → (∀ what, o ≠ EvalThrow what) → holds o = false →
     has this src line L ar =
       {| has_ret := Normal false; has_src := src; has_output := [];
          has_L := L1 |})
  ∧ (empty (cond b) = false → (∃ what, o = EvalThrow what) →
       has_src (has this src line L ar) = src)
  ∧ (empty (cond b) = true ∨ holds o = true →
       ∃ b', has_src (has this src line L ar) !! line = Some b'
             ∧ hit b' = hit b + 1
             ∧ cond b' = cond b ∧ hitcond b' = hitcond b ∧ log b' = log b).
Proof.
  intros Hlen Hfast Hb Hrange Heval.
  rewrite (has_open this src line L ar b) by done.
  unfold cond_stage. split_and!.
  - intros -> Hnothrow Hfalse.
    rewrite (evaluate_isok_outcome _ _ _ _ _ Heval), Hfalse.
    destruct o as [results|message|what]; [done | done |].
    by destruct (Hnothrow what).
  - intros -> [what ->]. by rewrite (evaluate_isok_outcome _ _ _ _ _ Heval).
  - intros Hpass. exists (hit_incr b).
    assert ((if empty (cond b) then (Normal true, L)
             else evaluate_isok L ar (cond b)).1 = Normal true) as Hstage.
    { destruct (empty (cond b)); [done |].
      destruct Hpass as [? | Htrue]; [done |].
      rewrite (evaluate_isok_outcome _ _ _ _ _ Heval), Htrue.
      by destruct o. }
    destruct (if empty (cond b) then _ else _) as [c L2].
    simpl in Hstage. subst c. simpl.
    split; [| by rewrite int_wrap_id by lia].
    destruct (hitcond_stage L2 ar (hit_incr b)) as [[[|]|what] L3];
      [destruct (empty (log b)) | |]; simpl; apply lookup_insert_eq.
Qed.

(** C8.  With the gate open, a breakpoint at the line whose condition has
    passed and whose hit condition is not empty: the hit count is
    incremented, and the script evaluated is "return ", the decimal text of
    the incremented hit count, a space, and the hit condition.  When that
    does not hold, [has] returns false and the incremented hit count stays;
    when it holds and there is no log message, [has] returns true. *)
Theorem has_hit_condition (this : breakpoint) (src : bp_source) (line : nat)
    (L L1 L2 : lua_State) (ar : lua_Debug) (b : bp) (o : eval_outcome) :
  (line < length (fast_table_ this))%nat →
  fast_at (fast_table_ this) line ≠ 0 →
  src !! line = Some b →
  INT_MIN ≤ hit b < INT_MAX →
  cond_stage L ar b = (Normal true, L1) →
  empty (hitcond b) = false →
  evaluate L1 ar ("return " +:+ to_string (hit b + 1) +:+ " " +:+ hitcond b)
    = (o, L2) →
  (∀ what, o ≠ EvalThrow what) →
  (∃ b', has_src (has this src line L ar) !! line = Some b'
         ∧ hit b' = hit b + 1)
  ∧ (holds o = false →
       has_ret (has this src line L ar) = Normal false
       ∧ has_output (has this src line L ar) = []
       ∧ has_L (has this src line L ar) = L2)
  ∧ (holds o = true → empty (log b) = true →
       has_ret (has this src line L ar) = Normal true
       ∧ has_L (has this src line L ar) = L2).
Proof.
  intros Hlen Hfast Hb Hrange Hcond Hne Heval Hnothrow.
  rewrite (has_open this src line L ar b) by done.
  rewrite Hcond. unfold hitcond_stage. simpl.
  rewrite Hne, (int_wrap_id (hit b + 1)) by lia.
  rewrite (evaluate_isok_outcome _ _ _ _ _ Heval).
  destruct o as [results|message|what]; [| | by destruct (Hnothrow what)].
  - destruct (holds (EvalOk results)) eqn:Hholds.
    + destruct (empty (log b)) eqn:Hlog; simpl.
      * split_and!; [| done | done].
        eexists. split; [apply lookup_insert_eq |]. simpl. apply int_wrap_id. lia.
      * split_and!; [| done | done].
        eexists. split; [apply lookup_insert_eq |]. simpl. apply int_wrap_id. lia.
    + simpl. split_and!; [| done | done].
      eexists. split; [apply lookup_insert_eq |]. simpl. apply int_wrap_id. lia.
  - simpl. split_and!; [| done | done].
    eexists. split; [apply lookup_insert_eq |]. simpl. apply int_wrap_id. lia.
Qed.

(** C10.  Text that starts with an opening brace and has no closing brace
    stays as it is behind the interpolation of what is before it: no script
    is evaluated for it and it ends in no exception of its own, and a message
    without any closing brace is its own interpolation.  A segment that is
    interpolated is the text between an opening brace and the first closing
    brace behind it, so it has no closing brace in it; it is found exactly
    where no opening brace is before it, and it is the script handed to the
    evaluation. *)
Theorem evaluate_log_braces (L : lua_State) (ar : lua_Debug) :
  (∀ pre tail, contains "}" tail = false →
     evaluate_log_try L ar (pre +:+ String "{" tail) =
       extend (evaluate_log_try L ar pre) (String "{" tail))
  ∧ (∀ log, contains "}" log = false → evaluate_log L ar log = (log, L))
  ∧ (∀ log pre expr post,
       regex_search log = Some (pre, expr, post) ↔
       log = pre +:+ String "{" (expr +:+ String "}" post)
       ∧ contains "{" pre = false ∧ contains "}" expr = false)
  ∧ (∀ log pre expr post, regex_search log = Some (pre, expr, post) →
       evaluate_log_try L ar log =
         match evaluate_getstr L ar expr with
         | (Thrown what, L') => (Thrown what, L')
         | (Normal str, L') => prepend (pre +:+ str) (evaluate_log_try L' ar post)
         end).
Proof.
  split_and!.
  - intros pre tail Htail. apply evaluate_log_try_append. simpl. done.
  - intros log Hlog. unfold evaluate_log.
    rewrite <- (append_nil_l log), evaluate_log_try_append by done.
    by rewrite evaluate_log_try_unfold.
  - intros log pre expr post. split.
    + apply regex_search_Some.
    + intros (-> & Hpre & Hexpr). by apply regex_search_intro.
  - intros log pre expr post Hsearch.
    by rewrite evaluate_log_try_unfold, Hsearch.
Qed.

End HasClaims.

(** ** The store and its fast table *)

Section Holders.
Context `{Countable K}.
Implicit Types m : gmap K bp_source.

Lemma holders_empty (line : nat) : holders (∅ : gmap K bp_source) line = 0%nat.
Proof. unfold holders. by rewrite map_filter_empty, map_size_empty. Qed.

Lemma holders_insert m (k : K) (bps : bp_source) (line : nat) :
  Z.of_nat (holders (<[k := bps]> m) line) =
  Z.of_nat (holders m line) - at_line (default ∅ (m !! k)) line + at_line bps line.
Proof.
  unfold holders, at_line.
  set (P := λ entry : K * bp_source, is_Some (entry.2 !! line)).
  assert (∀ old, filter P m !! k = Some old → (0 < size (filter P m))%nat) as Hpos.
  { intros old Hold. destruct (size (filter P m)) eqn:Hsize; [| lia].
    apply map_size_empty_iff in Hsize. by rewrite Hsize, lookup_empty in Hold. }
  rewrite map_filter_insert.
  destruct (m !! k) as [old|] eqn:Hk; simpl.
  - destruct (decide (is_Some (old !! line))) as [Hold|Hold].
    + assert (filter P m !! k = Some old) as Hfk
        by (by apply map_lookup_filter_Some).
      specialize (Hpos _ Hfk).
      destruct (decide (P (k, bps))) as [Hbps|Hbps]; simpl in Hbps.
      * rewrite map_size_insert_Some by eauto.
        rewrite decide_True by done. lia.
      * rewrite map_filter_delete, map_size_delete_Some by eauto.
        rewrite decide_False by done. lia.
    + assert (filter P m !! k = None) as Hfk.
      { apply map_lookup_filter_None. right. intros ? ?. by simplify_eq. }
      destruct (decide (P (k, bps))) as [Hbps|Hbps]; simpl in Hbps.
      * rewrite map_size_insert_None by done.
        rewrite decide_True by done. lia.
      * rewrite map_filter_delete, map_size_delete_None by done.
        rewrite decide_False by done. lia.
  - assert (filter P m !! k = None) as Hfk.
    { apply map_lookup_filter_None. by left. }
    rewrite lookup_empty.
    rewrite (decide_False (P := is_Some None)) by (by intros [? ?]).
    destruct (decide (P (k, bps))) as [Hbps|Hbps]; simpl in Hbps.
    + rewrite map_size_insert_None by done.
      rewrite decide_True by done. lia.
    + rewrite map_filter_delete, map_size_delete_None by done.
      rewrite decide_False by done. lia.
Qed.

Lemma holders_lookup m (k : K) (bps : bp_source) (line : nat) :
  m !! k = Some bps → at_line bps line ≤ Z.of_nat (holders m line).
Proof.
  intros Hk. unfold at_line. destruct (decide _) as [Hline|]; [| lia].
  unfold holders.
  set (P := λ entry : K * bp_source, is_Some (entry.2 !! line)).
  assert (filter P m !! k = Some bps) as Hfk by (by apply map_lookup_filter_Some).
  destruct (size (filter P m)) eqn:Hsize; [| lia].
  apply map_size_empty_iff in Hsize. by rewrite Hsize, lookup_empty in Hfk.
Qed.

End Holders.

Lemma at_line_empty (line : nat) : at_line ∅ line = 0.
Proof. unfold at_line. rewrite lookup_empty. by rewrite decide_False by (by intros [? ?]). Qed.

Lemma at_line_insert (bps : bp_source) (line l : nat) (b : bp) :
  at_line (<[line := b]> bps) l = if decide (l = line) then 1 else at_line bps l.
Proof.
  unfold at_line. destruct (decide (l = line)) as [->|Hne].
  - rewrite lookup_insert_eq. by rewrite decide_True by (by eexists).
  - by rewrite lookup_insert_ne.
Qed.

Lemma fast_at_lt (fast : list Z) (line : nat) :
  fast_at fast line ≠ 0 → (line < length fast)%nat.
Proof.
  unfold fast_at. intros Hne. apply lookup_lt_is_Some.
  destruct (fast !! line); [eauto | done].
Qed.

Lemma fast_at_alter_eq (f : Z → Z) (fast : list Z) (line : nat) :
  (line < length fast)%nat →
  fast_at (alter f line fast) line = f (fast_at fast line).
Proof.
  intros [n Hn]%lookup_lt_is_Some. unfold fast_at.
  by rewrite list_lookup_alter_eq, Hn.
Qed.

Lemma fast_at_alter_ne (f : Z → Z) (fast : list Z) (line l : nat) :
  l ≠ line → fast_at (alter f line fast) l = fast_at fast l.
Proof. intros Hne. unfold fast_at. by rewrite list_lookup_alter_ne. Qed.

Lemma fast_at_resize (fast : list Z) (n l : nat) :
  (length fast ≤ n)%nat → fast_at (resize n 0 fast) l = fast_at fast l.
Proof.
  intros Hn. unfold fast_at. rewrite resize_ge by done.
  destruct (decide (l < length fast)%nat) as [Hl|Hl].
  - by rewrite lookup_app_l.
  - rewrite lookup_app_r, (lookup_ge_None_2 fast l) by lia.
    destruct (replicate _ _ !! _) as [z|] eqn:Hz; [| done].
    by apply lookup_replicate in Hz as [-> _].
Qed.

(** The fast table after [add] on a table: one more at a line that is new
    to the table, the same elsewhere. *)
Lemma add_source_fast (fast : list Z) (bps : bp_source) (line l : nat)
    (info : bp_info) :
  fast_at (add_source fast bps line info).1 l =
  fast_at fast l + (if decide (l = line) then 1 - at_line bps line else 0).
Proof.
  unfold add_source, at_line. destruct (bps !! line) as [old|] eqn:Hline; simpl.
  - destruct (decide (l = line)); lia.
  - destruct (decide (l = line)) as [->|Hne].
    + case_bool_decide.
      * rewrite fast_at_alter_eq by (rewrite length_resize; lia).
        rewrite fast_at_resize by lia. lia.
      * rewrite fast_at_alter_eq by lia. lia.
    + rewrite fast_at_alter_ne by done.
      case_bool_decide; [rewrite fast_at_resize by lia |]; lia.
Qed.

Lemma add_source_table (fast : list Z) (bps : bp_source) (line : nat)
    (info : bp_info) :
  (add_source fast bps line info).2 =
  <[line := bp_ctor info (match bps !! line with
                          | Some old => hit old
                          | None => 0
                          end)]> bps.
Proof. unfold add_source. by destruct (bps !! line). Qed.

(** The fast table after [clear] on a table whose lines are within it: one
    less at every line of the table. *)
Lemma clear_entries_fast (entries : list (nat * bp)) (fast : list Z) (l : nat) :
  NoDup entries.*1 →
  (∀ line, line ∈ entries.*1 → (line < length fast)%nat) →
  fast_at (foldl (λ fast entry, alter (λ n, n - 1) entry.1 fast) fast entries) l =
  fast_at fast l - (if decide (l ∈ entries.*1) then 1 else 0).
Proof.
  revert fast. induction entries as [|[line b] entries IH]; intros fast Hnodup Hin.
  - simpl. lia.
  - rewrite fmap_cons in Hnodup, Hin |- *. cbn [foldl fst].
    apply NoDup_cons in Hnodup as [Hline Hnodup].
    rewrite IH; [| done |].
    + destruct (decide (l = line)) as [->|Hne].
      * rewrite fast_at_alter_eq by (apply Hin; left).
        rewrite (decide_False (P := line ∈ entries.*1)) by done.
        rewrite decide_True by left. lia.
      * rewrite fast_at_alter_ne by done.
        destruct (decide (l ∈ entries.*1)) as [Hl|Hl].
        -- rewrite decide_True by (by right). done.
        -- rewrite decide_False; [done |].
           by intros [?|?]%elem_of_cons.
    + intros line' Hline'. rewrite length_alter. apply Hin. by right.
Qed.

Lemma clear_source_fast (fast : list Z) (bps : bp_source) (l : nat) :
  (∀ line, is_Some (bps !! line) → (line < length fast)%nat) →
  fast_at (clear_source fast bps).1 l = fast_at fast l - at_line bps l.
Proof.
  intros Hin. unfold clear_source. cbn [fst].
  assert (∀ line, line ∈ (map_to_list bps).*1 ↔ is_Some (bps !! line)) as Hdom.
  { intros line. rewrite list_elem_of_fmap. split.
    - intros [[line' b] [-> Hb%elem_of_map_to_list]]. eauto.
    - intros [b Hb]. exists (line, b). by rewrite elem_of_map_to_list. }
  rewrite clear_entries_fast.
  - unfold at_line. destruct (decide (is_Some (bps !! l))) as [Hl|Hl].
    + by rewrite decide_True by (by apply Hdom).
    + by rewrite decide_False by (by rewrite Hdom).
  - apply NoDup_fst_map_to_list.
  - intros line Hline. by apply Hin, Hdom.
Qed.

Lemma clear_source_length (fast : list Z) (bps : bp_source) :
  length (clear_source fast bps).1 = length fast.
Proof.
  unfold clear_source. cbn [fst]. generalize (map_to_list bps). intros entries.
  revert fast. induction entries as [|e entries IH]; intros fast; [done |].
  cbn [foldl]. by rewrite IH, length_alter.
Qed.

(** [add] and [clear], by what they do to the table of the key, to the other
    tables and to the fast table. *)
Lemma add_fast (this : breakpoint) (key : source_key) (line : nat)
    (info : bp_info) :
  fast_table_ (add this key line info) =
  (add_source (fast_table_ this) (table this key) line info).1.
Proof.
  destruct key as [path|ref]; simpl.
  - unfold add_path, get_bp_path.
    destruct (files_ this !! path) as [bps|]; simpl;
      by destruct (add_source _ _ _ _).
  - unfold add_ref, get_bp_ref.
    destruct (memorys_ this !! ref) as [bps|]; simpl;
      by destruct (add_source _ _ _ _).
Qed.

Lemma add_files (this : breakpoint) (key : source_key) (line : nat)
    (info : bp_info) :
  files_ (add this key line info) =
  match key with
  | by_path path =>
      <[path := (add_source (fast_table_ this) (table this key) line info).2]>
        (files_ this)
  | by_ref _ => files_ this
  end.
Proof.
  destruct key as [path|ref]; simpl.
  - unfold add_path, get_bp_path.
    destruct (files_ this !! path) as [bps|]; simpl;
      destruct (add_source _ _ _ _); simpl; [done |].
    by rewrite insert_insert_eq.
  - unfold add_ref, get_bp_ref.
    destruct (memorys_ this !! ref) as [bps|]; simpl;
      by destruct (add_source _ _ _ _).
Qed.

Lemma add_memorys (this : breakpoint) (key : source_key) (line : nat)
    (info : bp_info) :
  memorys_ (add this key line info) =
  match key with
  | by_path _ => memorys_ this
  | by_ref ref =>
      <[ref := (add_source (fast_table_ this) (table this key) line info).2]>
        (memorys_ this)
  end.
Proof.
  destruct key as [path|ref]; simpl.
  - unfold add_path, get_bp_path.
    destruct (files_ this !! path) as [bps|]; simpl;
      by destruct (add_source _ _ _ _).
  - unfold add_ref, get_bp_ref.
    destruct (memorys_ this !! ref) as [bps|]; simpl;
      destruct (add_source _ _ _ _); simpl; [done |].
    by rewrite insert_insert_eq.
Qed.

Lemma add_table (this : breakpoint) (key key' : source_key) (line : nat)
    (info : bp_info) :
  table (add this key line info) key' =
  if decide (key' = key)
  then (add_source (fast_table_ this) (table this key) line info).2
  else table this key'.
Proof.
  unfold table at 1. rewrite add_files, add_memorys.
  destruct key as [path|ref], key' as [path'|ref'];
    try (rewrite decide_False by done; done).
  - destruct (decide (path' = path)) as [->|Hne].
    + rewrite decide_True by done. by rewrite lookup_insert_eq.
    + rewrite decide_False by congruence. by rewrite lookup_insert_ne.
  - destruct (decide (ref' = ref)) as [->|Hne].
    + rewrite decide_True by done. by rewrite lookup_insert_eq.
    + rewrite decide_False by congruence. by rewrite lookup_insert_ne.
Qed.

Lemma add_tables_with (this : breakpoint) (key : source_key) (line l : nat)
    (info : bp_info) :
  Z.of_nat (tables_with (add this key line info) l) =
  Z.of_nat (tables_with this l) - at_line (table this key) l
  + at_line (add_source (fast_table_ this) (table this key) line info).2 l.
Proof.
  unfold tables_with. rewrite add_files, add_memorys, !Nat2Z.inj_add.
  destruct key as [path|ref]; rewrite holders_insert; simpl; lia.
Qed.

Lemma clear_source_nothing (fast : list Z) : (clear_source fast ∅).1 = fast.
Proof. unfold clear_source. by rewrite map_to_list_empty. Qed.

Lemma clear_key_fast (this : breakpoint) (key : source_key) :
  fast_table_ (clear_key this key) =
  (clear_source (fast_table_ this) (table this key)).1.
Proof.
  destruct key as [path|ref]; simpl.
  - unfold clear_path. destruct (files_ this !! path) as [bps|]; [done |].
    symmetry. apply clear_source_nothing.
  - unfold clear_ref. destruct (memorys_ this !! ref) as [bps|]; [done |].
    symmetry. apply clear_source_nothing.
Qed.

Lemma clear_key_table (this : breakpoint) (key key' : source_key) :
  table (clear_key this key) key' =
  if decide (key' = key) then ∅ else table this key'.
Proof.
  destruct (decide (key' = key)) as [->|Hne].
  - destruct key as [path|ref]; unfold clear_key, table.
    + unfold clear_path. destruct (files_ this !! path) as [bps|] eqn:Hpath.
      * cbn. by rewrite lookup_insert_eq.
      * by rewrite Hpath.
    + unfold clear_ref. destruct (memorys_ this !! ref) as [bps|] eqn:Href.
      * cbn. by rewrite lookup_insert_eq.
      * by rewrite Href.
  - destruct key as [path|ref], key' as [path'|ref']; unfold clear_key, table.
    + unfold clear_path. destruct (files_ this !! path) as [bps|]; [| done].
      cbn. rewrite lookup_insert_ne; [done | congruence].
    + unfold clear_path. by destruct (files_ this !! path).
    + unfold clear_ref. by destruct (memorys_ this !! ref).
    + unfold clear_ref. destruct (memorys_ this !! ref) as [bps|]; [| done].
      cbn. rewrite lookup_insert_ne; [done | congruence].
Qed.

Lemma clear_key_tables_with (this : breakpoint) (key : source_key) (l : nat) :
  Z.of_nat (tables_with (clear_key this key) l) =
  Z.of_nat (tables_with this l) - at_line (table this key) l.
Proof.
  unfold tables_with. rewrite !Nat2Z.inj_add.
  destruct key as [path|ref]; simpl.
  - unfold clear_path. destruct (files_ this !! path) as [bps|] eqn:Hpath; simpl.
    + rewrite holders_insert, Hpath, at_line_empty. simpl. lia.
    + rewrite at_line_empty. lia.
  - unfold clear_ref. destruct (memorys_ this !! ref) as [bps|] eqn:Href; simpl.
    + rewrite holders_insert, Href, at_line_empty. simpl. lia.
    + rewrite at_line_empty. lia.
Qed.

Lemma at_line_tables_with (this : breakpoint) (key : source_key) (l : nat) :
  0 ≤ at_line (table this key) l ≤ Z.of_nat (tables_with this l).
Proof.
  split; [unfold at_line; case_decide; lia |].
  unfold tables_with. rewrite Nat2Z.inj_add.
  destruct key as [path|ref]; simpl.
  - destruct (files_ this !! path) as [bps|] eqn:Hpath; simpl.
    + pose proof (holders_lookup _ _ _ l Hpath). lia.
    + rewrite at_line_empty. lia.
  - destruct (memorys_ this !! ref) as [bps|] eqn:Href; simpl.
    + pose proof (holders_lookup _ _ _ l Href). lia.
    + rewrite at_line_empty. lia.
Qed.

(** The fast table counts the tables of a new store, and every request
    keeps it so. *)
Lemma fast_counts_new : fast_counts new_breakpoint.
Proof.
  intros line. unfold tables_with. simpl. rewrite !holders_empty.
  unfold fast_at. by rewrite lookup_nil.
Qed.

Lemma fast_counts_clear (this : breakpoint) : fast_counts (clear this).
Proof.
  intros line. unfold tables_with. simpl. rewrite !holders_empty.
  unfold fast_at. by rewrite lookup_nil.
Qed.

Lemma fast_counts_add (this : breakpoint) (key : source_key) (line : nat)
    (info : bp_info) :
  fast_counts this → fast_counts (add this key line info).
Proof.
  intros Hcounts l.
  rewrite add_fast, add_source_fast, add_tables_with, add_source_table.
  rewrite at_line_insert, (Hcounts l).
  destruct (decide (l = line)) as [->|Hne]; lia.
Qed.

Lemma fast_counts_within (this : breakpoint) (key : source_key) (line : nat) :
  fast_counts this →
  is_Some (table this key !! line) →
  (line < length (fast_table_ this))%nat.
Proof.
  intros Hcounts Hline. apply fast_at_lt. rewrite (Hcounts line).
  pose proof (at_line_tables_with this key line) as Hle.
  unfold at_line in Hle. rewrite decide_True in Hle by done. lia.
Qed.

Lemma fast_counts_clear_key (this : breakpoint) (key : source_key) :
  fast_counts this → fast_counts (clear_key this key).
Proof.
  intros Hcounts l.
  rewrite clear_key_fast, clear_key_tables_with, clear_source_fast, (Hcounts l);
    [done |].
  intros line Hline. by eapply fast_counts_within.
Qed.

Lemma fast_counts_serve_all (requests : list request) :
  fast_counts (serve_all requests).
Proof.
  unfold serve_all.
  induction requests as [|r requests IH] using rev_ind.
  - apply fast_counts_new.
  - rewrite foldl_snoc. destruct r as [key line info|key|]; simpl.
    + by apply fast_counts_add.
    + by apply fast_counts_clear_key.
    + apply fast_counts_clear.
Qed.

(** C5.  After every sequence of [add], [clear(source)] and [clear()], the
    entry of the fast table at a line, taken as 0 beyond the end of the
    table, is the number of tables of [files_] and [memorys_] together that
    hold a breakpoint at that line. *)
Theorem fast_table_counts (requests : list request) (line : nat) :
  fast_at (fast_table_ (serve_all requests)) line =
  Z.of_nat (holders (files_ (serve_all requests)) line
            + holders (memorys_ (serve_all requests)) line).
Proof. apply fast_counts_serve_all. Qed.

(** C6.  After [add] the table of the source has, at the line, the
    breakpoint the constructor makes of the new definition: condition, hit
    condition and log message are the definition's (an absent member is the
    empty string, a log message is stored with a newline behind it), and the
    hit count is the one of the breakpoint that was at the line, or 0 when
    there was none.  This is so in every state of the store, so after every
    sequence of [add]s. *)
Theorem add_replaces (this : breakpoint) (key : source_key) (line : nat)
    (info : bp_info) :
  table (add this key line info) key !! line =
  Some {| cond := default "" (condition info);
          hitcond := default "" (hitCondition info);
          log := match logMessage info with
                 | Some message => message +:+ newline
                 | None => ""
                 end;
          hit := match table this key !! line with
                 | Some old => hit old
                 | None => 0
                 end |}.
Proof.
  rewrite add_table, decide_True by done.
  rewrite add_source_table. apply lookup_insert_eq.
Qed.

Section ClearClaims.
Context `{Host}.

(** C9.  In every store whose fast table counts its tables (a store
    reached by requests is one, and calls of [has] and of [get_function] in
    between keep it one), with two different sources that both hold a
    breakpoint at a line: [clear] of the first leaves its table empty, takes
    one off the fast table at every line the table had and leaves the other
    entries as they were; the table of the second source, and of every
    other source, is as it was, hit counts included, and so is the function
    cache; [has] on the second source's table answers as before, at that
    line and at every other. *)
Theorem clear_key_frame (this : breakpoint) (A B : source_key) (line : nat) :
  fast_counts this →
  A ≠ B →
  is_Some (table this A !! line) →
  is_Some (table this B !! line) →
  table (clear_key this A) A = ∅
  ∧ table (clear_key this A) B = table this B
  ∧ (∀ key, key ≠ A → table (clear_key this A) key = table this key)
  ∧ functions_ (clear_key this A) = functions_ this
  ∧ (∀ l, fast_at (fast_table_ (clear_key this A)) l =
          fast_at (fast_table_ this) l - at_line (table this A) l)
  ∧ (∀ l L ar, has (clear_key this A) (table (clear_key this A) B) l L ar =
               has this (table this B) l L ar).
Proof.
  intros Hcounts Hne HA HB.
  assert (∀ l, fast_at (fast_table_ (clear_key this A)) l =
               fast_at (fast_table_ this) l - at_line (table this A) l) as Hfast.
  { intros l. rewrite clear_key_fast, clear_source_fast; [done |].
    intros line' Hline'. by eapply fast_counts_within. }
  assert (∀ key, key ≠ A → table (clear_key this A) key = table this key)
    as Hothers.
  { intros key Hkey. rewrite clear_key_table. by rewrite decide_False by done. }
  assert (table (clear_key this A) B = table this B) as HtB
    by (by apply Hothers).
  split_and!; [| done | done | | done |].
  - rewrite clear_key_table. by rewrite decide_True by done.
  - destruct A as [path|ref]; simpl.
    + unfold clear_path. by destruct (files_ this !! path).
    + unfold clear_ref. by destruct (memorys_ this !! ref).
  - intros l L ar. rewrite HtB.
    destruct (table this B !! l) as [b|] eqn:Hl.
    + assert (fast_at (fast_table_ this) l ≠ 0
              ∧ fast_at (fast_table_ (clear_key this A)) l ≠ 0) as [Hopen Hopen'].
      { rewrite Hfast, (Hcounts l).
        pose proof (at_line_tables_with this A l) as HleA.
        assert (at_line (table this A) l + at_line (table this B) l
                ≤ Z.of_nat (tables_with this l)) as Hsum.
        { pose proof (fast_counts_clear_key this A Hcounts l) as Hc.
          rewrite Hfast, (Hcounts l) in Hc.
          pose proof (at_line_tables_with (clear_key this A) B l) as HleB.
          rewrite HtB in HleB. lia. }
        assert (at_line (table this B) l = 1) as HB1.
        { unfold at_line. by rewrite decide_True by (by eexists). }
        lia. }
      rewrite !(has_open _ _ _ _ _ b); try done; by apply fast_at_lt.
    + rewrite !has_closed; auto.
Qed.

End ClearClaims.

(** ** The function cache *)

Section CacheClaims.
Context `{Host}.

Lemma get_bp_path_table (this : breakpoint) (path : string) (key : source_key) :
  table (get_bp_path this path).2 key = table this key.
Proof.
  unfold get_bp_path. destruct (files_ this !! path) as [bps|] eqn:Hpath; [done |].
  destruct key as [path'|ref]; [| done]. cbn.
  destruct (decide (path' = path)) as [->|Hne].
  - by rewrite lookup_insert_eq, Hpath.
  - by rewrite lookup_insert_ne.
Qed.

Lemma get_bp_ref_table (this : breakpoint) (ref : Z) (key : source_key) :
  table (get_bp_ref this ref).2 key = table this key.
Proof.
  unfold get_bp_ref. destruct (memorys_ this !! ref) as [bps|] eqn:Href; [done |].
  destruct key as [path|ref']; [done |]. cbn.
  destruct (decide (ref' = ref)) as [->|Hne].
  - by rewrite lookup_insert_eq, Href.
  - by rewrite lookup_insert_ne.
Qed.

(** Resolving a function changes neither the breakpoints of any source nor
    the cache nor the fast table. *)
Lemma bp_function_ctor_frame (this : breakpoint) (L : lua_State) (ar : lua_Debug) :
  (∀ key, table (bp_function_ctor this L ar).2 key = table this key)
  ∧ functions_ (bp_function_ctor this L ar).2 = functions_ this
  ∧ fast_table_ (bp_function_ctor this L ar).2 = fast_table_ this.
Proof.
  unfold bp_function_ctor.
  destruct (lua_getinfo_S L ar) as [[source address]|]; [| done].
  destruct (starts_with source "@" || starts_with source "=").
  - destruct (pathconvert_get source) as [[|] path]; [| done].
    split_and!; [intros key; apply get_bp_path_table | |];
      unfold get_bp_path; by destruct (files_ this !! path).
  - split_and!; [intros key; apply get_bp_ref_table | |];
      unfold get_bp_ref; by destruct (memorys_ this !! address).
Qed.

(** C2, as amended.  When the identity of the running function is
    available, [get_function] leaves a binding for it in the cache and
    returns that binding exactly when it is bound to a table, null when it
    is not; whether the table holds a breakpoint plays no part, and the
    breakpoints of every source and the fast table are as before. *)
Theorem get_function_returns_bound (this : breakpoint) (L : lua_State)
    (ar : lua_Debug) (f : Z) :
  lua_getinfo_f L ar = Some f →
  ∃ func,
    functions_ (get_function this L ar).2 !! f = Some func
    ∧ (get_function this L ar).1 =
        match fn_bp func with Some _ => Some func | None => None end
    ∧ (∀ key, table (get_function this L ar).2 key = table this key)
    ∧ fast_table_ (get_function this L ar).2 = fast_table_ this.
Proof.
  intros Hf. unfold get_function. rewrite Hf.
  destruct (functions_ this !! f) as [func|] eqn:Hcached.
  - exists func. by destruct (fn_bp func).
  - destruct (bp_function_ctor_frame this L ar) as (Htable & Hfuncs & Hfast).
    destruct (bp_function_ctor this L ar) as [func this1]. simpl in *.
    exists func. rewrite lookup_insert_eq. by destruct (fn_bp func).
Qed.

(** C3, as amended.  When the identity of the running function is not
    available, [get_function] returns null and the store, its cache
    included, is as before.  When the identity is available, the function is
    not in the cache and its source descriptor is not available,
    [get_function] returns null and puts an unbound binding in the cache;
    every later call for that function returns null from the cache and
    leaves the store as it is, whatever the debug information says then. *)
Theorem get_function_unavailable (this : breakpoint) (L : lua_State)
    (ar : lua_Debug) :
  (lua_getinfo_f L ar = None → get_function this L ar = (None, this))
  ∧ (∀ f, lua_getinfo_f L ar = Some f →
          functions_ this !! f = None →
          lua_getinfo_S L ar = None →
          (get_function this L ar).1 = None
          ∧ functions_ (get_function this L ar).2 !! f =
              Some {| clientpath := ""; sourceref := 0; fn_bp := None |}
          ∧ ∀ L' ar', lua_getinfo_f L' ar' = Some f →
              get_function (get_function this L ar).2 L' ar' =
                (None, (get_function this L ar).2)).
Proof.
  split.
  - intros Hf. unfold get_function. by rewrite Hf.
  - intros f Hf Hcached Hsource.
    assert (get_function this L ar =
              (None, set_functions this
                       (<[f := {| clientpath := ""; sourceref := 0;
                                  fn_bp := None |}]> (functions_ this)))) as ->.
    { unfold get_function, bp_function_ctor. by rewrite Hf, Hcached, Hsource. }
    simpl. split_and!; [done | apply lookup_insert_eq |].
    intros L' ar' Hf'. unfold get_function. rewrite Hf'. simpl.
    by rewrite lookup_insert_eq.
Qed.

End CacheClaims.

(** The other two functions that write to the store keep the counts as
    well: [get_function] adds at most an empty table, and [has] changes the
    hit count of a breakpoint that is there. *)
Lemma holders_insert_empty `{Countable K} (m : gmap K bp_source) (k : K)
    (line : nat) :
  m !! k = None → holders (<[k := ∅]> m) line = holders m line.
Proof.
  intros Hk. apply Nat2Z.inj. rewrite holders_insert, Hk. simpl.
  rewrite at_line_empty. lia.
Qed.

Section OtherWriters.
Context `{Host}.

Lemma get_function_tables_with (this : breakpoint) (L : lua_State)
    (ar : lua_Debug) (line : nat) :
  tables_with (get_function this L ar).2 line = tables_with this line.
Proof.
  assert (tables_with (bp_function_ctor this L ar).2 line = tables_with this line)
    as Hctor.
  { unfold bp_function_ctor.
    destruct (lua_getinfo_S L ar) as [[source address]|]; [| done].
    destruct (starts_with source "@" || starts_with source "=").
    - destruct (pathconvert_get source) as [[|] path]; [| done].
      unfold get_bp_path. destruct (files_ this !! path) eqn:Hpath; [done |].
      unfold tables_with. cbn. by rewrite holders_insert_empty.
    - unfold get_bp_ref. destruct (memorys_ this !! address) eqn:Href; [done |].
      unfold tables_with. cbn. by rewrite holders_insert_empty. }
  unfold get_function. destruct (lua_getinfo_f L ar) as [f|]; [| done].
  destruct (functions_ this !! f) as [func|]; [done |].
  by destruct (bp_function_ctor this L ar) as [func this1].
Qed.

Lemma fast_counts_get_function (this : breakpoint) (L : lua_State)
    (ar : lua_Debug) :
  fast_counts this → fast_counts (get_function this L ar).2.
Proof.
  intros Hcounts line. rewrite get_function_tables_with, <- (Hcounts line).
  unfold get_function. destruct (lua_getinfo_f L ar) as [f|]; [| done].
  destruct (functions_ this !! f) as [func|]; [done |].
  destruct (bp_function_ctor_frame this L ar) as (_ & _ & Hfast).
  destruct (bp_function_ctor this L ar) as [func this1]. simpl in *.
  by rewrite Hfast.
Qed.

Lemma has_at_line (this : breakpoint) (src : bp_source) (line l : nat)
    (L : lua_State) (ar : lua_Debug) :
  at_line (has_src (has this src line L ar)) l = at_line src l.
Proof.
  assert (∀ b b', src !! line = Some b →
            at_line (<[line := b']> src) l = at_line src l) as Hsame.
  { intros b b' Hb. rewrite at_line_insert.
    destruct (decide (l = line)) as [->|]; [| done].
    unfold at_line. by rewrite decide_True by (by eexists). }
  unfold has. destruct (_ || _); [done |].
  destruct (src !! line) as [b|] eqn:Hb; [| done].
  destruct (if empty (cond b) then _ else _) as [[[|]|what] L1]; try done.
  destruct (if empty (hitcond _) then _ else _) as [[[|]|what] L2];
    simpl; eauto.
  destruct (empty (log b)); simpl; eauto.
  destruct (evaluate_log L2 ar (log b)). simpl. eauto.
Qed.

(** The write of [has] through its pointer keeps the counts: the table it
    leaves has breakpoints at the lines the table had. *)
Lemma fast_counts_write_table (this : breakpoint) (key : source_key)
    (bps : bp_source) :
  fast_counts this →
  (∀ l, at_line bps l = at_line (table this key) l) →
  fast_counts (write_table this key bps).
Proof.
  intros Hcounts Hlines l.
  assert (Z.of_nat (tables_with (write_table this key bps) l)
          = Z.of_nat (tables_with this l)) as Htables.
  { unfold tables_with. rewrite !Nat2Z.inj_add. specialize (Hlines l).
    destruct key as [path|ref]; simpl in *; rewrite holders_insert; lia. }
  rewrite Htables, <- (Hcounts l). by destruct key.
Qed.

Lemma fast_counts_has (this : breakpoint) (key : source_key) (line : nat)
    (L : lua_State) (ar : lua_Debug) :
  fast_counts this →
  fast_counts
    (write_table this key (has_src (has this (table this key) line L ar))).
Proof.
  intros Hcounts. apply fast_counts_write_table; [done |].
  intros l. apply has_at_line.
Qed.

End OtherWriters.

(** ** More about the per-line test *)

Section HasMore.
Context `{Host}.

(** What a call of [has] that returns true has gone through. *)
Lemma has_true_inv (this : breakpoint) (src : bp_source) (line : nat)
    (L : lua_State) (ar : lua_Debug) :
  has_ret (has this src line L ar) = Normal true →
  (line < length (fast_table_ this))%nat
  ∧ fast_at (fast_table_ this) line ≠ 0
  ∧ ∃ b, src !! line = Some b
         ∧ empty (log b) = true
         ∧ has_src (has this src line L ar) = <[line := hit_incr b]> src
         ∧ has_output (has this src line L ar) = [].
Proof.
  unfold has.
  destruct (bool_decide (length (fast_table_ this) ≤ line)%nat) eqn:Hlen;
    [done |].
  destruct (bool_decide (fast_at (fast_table_ this) line = 0)) eqn:Hfast;
    [done |].
  apply bool_decide_eq_false in Hlen, Hfast. simpl.
  destruct (src !! line) as [b|]; [| done].
  destruct (if empty (cond b) then _ else _) as [[[|]|what] L1]; try done.
  destruct (if empty (hitcond _) then _ else _) as [[[|]|what] L2]; try done.
  simpl. destruct (empty (log b)) eqn:Hlog.
  - intros _. split_and!; [lia | done |]. by exists b.
  - by destruct (evaluate_log L2 ar (log b)).
Qed.

(** X1.  A breakpoint without condition, hit condition and log message
    pauses: with the gate open, [has] returns true, counts the hit,
    evaluates nothing (the VM state is the one it was given) and puts
    nothing out. *)
Theorem has_unconditional (this : breakpoint) (src : bp_source) (line : nat)
    (L : lua_State) (ar : lua_Debug) (b : bp) :
  (line < length (fast_table_ this))%nat →
  fast_at (fast_table_ this) line ≠ 0 →
  src !! line = Some b →
  empty (cond b) = true →
  empty (hitcond b) = true →
  empty (log b) = true →
  has this src line L ar =
    {| has_ret := Normal true;
       has_src := <[line := hit_incr b]> src;
       has_output := [];
       has_L := L |}.
Proof.
  intros Hlen Hfast Hb Hcond Hhit Hlog.
  rewrite (has_open this src line L ar b) by done.
  unfold cond_stage, hitcond_stage. simpl. by rewrite Hcond, Hhit, Hlog.
Qed.

(** X2.  [has] writes to one place only: the breakpoints at the other lines
    of the table are as before, and at the line there is a breakpoint
    afterwards exactly if there was one, the same one or the same with its
    hit counted. *)
Theorem has_changes_hit_only (this : breakpoint) (src : bp_source)
    (line : nat) (L : lua_State) (ar : lua_Debug) :
  (∀ l, l ≠ line → has_src (has this src line L ar) !! l = src !! l)
  ∧ match src !! line with
    | None => has_src (has this src line L ar) !! line = None
    | Some b =>
        has_src (has this src line L ar) !! line = Some b
        ∨ has_src (has this src line L ar) !! line = Some (hit_incr b)
    end.
Proof.
  assert (has_src (has this src line L ar) = src
          ∨ ∃ b, src !! line = Some b
                 ∧ has_src (has this src line L ar) = <[line := hit_incr b]> src)
    as Hcases.
  { unfold has. destruct (_ || _); [by left |].
    destruct (src !! line) as [b|]; [| by left].
    destruct (if empty (cond b) then _ else _) as [[[|]|what] L1];
      try (by left).
    right. exists b. split; [done |].
    destruct (if empty (hitcond _) then _ else _) as [[[|]|what] L2]; try done.
    destruct (empty (log _)); [done |].
    by destruct (evaluate_log L2 ar (log _)). }
  destruct Hcases as [-> | (b & Hb & ->)].
  - split; [done |]. destruct (src !! line); auto.
  - split.
    + intros l Hl. by rewrite lookup_insert_ne.
    + rewrite Hb, lookup_insert_eq. by right.
Qed.

(** X3.  A call of [has] that returns true has found a breakpoint at the
    line behind an open gate, one without a log message; it has counted the
    hit and has put nothing out. *)
Theorem has_pause_is_silent (this : breakpoint) (src : bp_source) (line : nat)
    (L : lua_State) (ar : lua_Debug) :
  has_ret (has this src line L ar) = Normal true →
  has_output (has this src line L ar) = []
  ∧ (line < length (fast_table_ this))%nat
  ∧ fast_at (fast_table_ this) line ≠ 0
  ∧ ∃ b, src !! line = Some b
         ∧ empty (log b) = true
         ∧ has_src (has this src line L ar) !! line = Some (hit_incr b).
Proof.
  intros Htrue.
  destruct (has_true_inv _ _ _ _ _ Htrue) as (Hlen & Hfast & b & Hb & Hlog & Hsrc & Hout).
  split_and!; [done | done | done |].
  exists b. split_and!; [done | done |]. rewrite Hsrc. apply lookup_insert_eq.
Qed.

(** X4.  A breakpoint whose definition has a [logMessage], be it the empty
    string, never pauses: [has] does not return true at its line. *)
Theorem has_log_message_never_pauses (this : breakpoint) (src : bp_source)
    (line : nat) (L : lua_State) (ar : lua_Debug) (info : bp_info) (h : Z)
    (message : string) :
  src !! line = Some (bp_ctor info h) →
  logMessage info = Some message →
  has_ret (has this src line L ar) ≠ Normal true.
Proof.
  intros Hb Hmsg Htrue.
  destruct (has_true_inv _ _ _ _ _ Htrue) as (_ & _ & b & Hb' & Hlog & _).
  rewrite Hb in Hb'. injection Hb' as <-. simpl in Hlog. rewrite Hmsg in Hlog.
  by destruct message.
Qed.

(** X5.  [has] puts out nothing, or one text on the channel stdout; it puts
    out a text only for a breakpoint with a log message, and then it
    returns false. *)
Theorem has_output_at_most_one (this : breakpoint) (src : bp_source)
    (line : nat) (L : lua_State) (ar : lua_Debug) :
  has_output (has this src line L ar) = []
  ∨ ∃ text b, has_output (has this src line L ar) = [("stdout", text)]
              ∧ src !! line = Some b
              ∧ empty (log b) = false
              ∧ has_ret (has this src line L ar) = Normal false.
Proof.
  unfold has. destruct (_ || _); [by left |].
  destruct (src !! line) as [b|]; [| by left].
  destruct (if empty (cond b) then _ else _) as [[[|]|what] L1]; try (by left).
  destruct (if empty (hitcond _) then _ else _) as [[[|]|what] L2];
    try (by left).
  simpl. destruct (empty (log b)) eqn:Hlog; [by left |].
  destruct (evaluate_log L2 ar (log b)) as [text L3]. right. by exists text, b.
Qed.

End HasMore.

(** ** More about evaluation and interpolation *)

Lemma regex_search_prefix (lit s : string) :
  contains "{" lit = false →
  regex_search (lit +:+ s) =
    match regex_search s with
    | Some (pre, inner, post) => Some (lit +:+ pre, inner, post)
    | None => None
    end.
Proof.
  intros Hlit. induction lit as [|c lit IH].
  - rewrite append_nil_l. by destruct (regex_search s) as [[[pre inner] post]|].
  - rewrite append_cons. simpl in *.
    apply orb_false_elim in Hlit as [-> Hlit]. rewrite IH by done.
    by destruct (regex_search s) as [[[pre inner] post]|].
Qed.

Section EvaluationMore.
Context `{Host}.

(** X6.  A condition holds only for the boolean true: [evaluate_isok]
    returns true exactly when the evaluation of "return <script>" succeeds
    and its first result is the boolean true.  A first result that is a
    number, a string or another object, true as Lua has it, does not count. *)
Theorem evaluate_isok_true (L L' : lua_State) (ar : lua_Debug) (script : string) :
  evaluate_isok L ar script = (Normal true, L') ↔
  ∃ rest, evaluate L ar ("return " +:+ script) = (EvalOk (LuaBoolean true :: rest), L').
Proof.
  destruct (evaluate L ar ("return " +:+ script)) as [o L1] eqn:Heval.
  rewrite (evaluate_isok_outcome _ _ _ _ _ Heval). split.
  - intros Hok.
    assert (holds o = true ∧ L1 = L') as [Hholds ->].
    { destruct o; simplify_eq; done. }
    apply holds_true in Hholds as [rest ->]. by exists rest.
  - intros [rest [= -> ->]]. done.
Qed.

(** X7.  A segment whose evaluation succeeds is replaced by the text of the
    first result of "return tostring(<segment>)" as [lua_tolstring] gives
    it, by nothing when that is not a string or a number or when there is
    no result; the text before the segment is kept and the interpolation
    goes on behind it, in the VM state the evaluation left. *)
Theorem evaluate_log_segment (L L1 : lua_State) (ar : lua_Debug)
    (pre expr post : string) (results : list lua_value) :
  contains "{" pre = false →
  contains "}" expr = false →
  evaluate L ar ("return tostring(" +:+ expr +:+ ")") = (EvalOk results, L1) →
  evaluate_log_try L ar (pre +:+ String "{" (expr +:+ String "}" post)) =
    prepend (pre +:+ match results with
                     | v :: _ => default "" (lua_tolstring v)
                     | [] => ""
                     end)
      (evaluate_log_try L1 ar post).
Proof.
  intros Hpre Hexpr Heval.
  rewrite evaluate_log_try_unfold, (regex_search_intro pre expr post) by done.
  rewrite (evaluate_getstr_outcome _ _ _ _ _ Heval).
  by destruct results.
Qed.

(** X8.  Text without an opening brace in front of a message is copied in
    front of the interpolation of the message, and nothing is evaluated for
    it. *)
Theorem evaluate_log_literal_prefix (L : lua_State) (ar : lua_Debug)
    (lit log : string) :
  contains "{" lit = false →
  evaluate_log_try L ar (lit +:+ log) = prepend lit (evaluate_log_try L ar log).
Proof.
  intros Hlit.
  rewrite (evaluate_log_try_unfold L ar (lit +:+ log)),
    (evaluate_log_try_unfold L ar log), regex_search_prefix by done.
  destruct (regex_search log) as [[[pre inner] post]|]; simpl.
  - destruct (evaluate_getstr L ar inner) as [[str|what] L']; [| done].
    by rewrite prepend_prepend, append_assoc.
  - done.
Qed.

(** X9.  An exception that leaves the evaluation of a segment ends the
    interpolation: the result of [evaluate_log] is the description of the
    exception alone, without the text gathered before the segment, and
    nothing behind the segment is evaluated. *)
Theorem evaluate_log_exception (L L1 : lua_State) (ar : lua_Debug)
    (pre expr post what : string) :
  contains "{" pre = false →
  contains "}" expr = false →
  evaluate L ar ("return tostring(" +:+ expr +:+ ")") = (EvalThrow what, L1) →
  evaluate_log L ar (pre +:+ String "{" (expr +:+ String "}" post)) = (what, L1).
Proof.
  intros Hpre Hexpr Heval. unfold evaluate_log.
  rewrite evaluate_log_try_unfold, (regex_search_intro pre expr post) by done.
  by rewrite (evaluate_getstr_outcome _ _ _ _ _ Heval).
Qed.

End EvaluationMore.

(** ** More about the function cache *)

Section CacheMore.
Context `{Host}.

(** X10.  A function that has been resolved is answered from the cache: a
    later call for the same function returns what the first call returned
    and leaves the store as it is, whatever the debug information says
    about the source by then. *)
Theorem get_function_cached (this : breakpoint) (L L' : lua_State)
    (ar ar' : lua_Debug) (f : Z) :
  lua_getinfo_f L ar = Some f →
  lua_getinfo_f L' ar' = Some f →
  get_function (get_function this L ar).2 L' ar' = get_function this L ar.
Proof.
  intros Hf Hf'. unfold get_function. rewrite Hf.
  destruct (functions_ this !! f) as [func|] eqn:Hcached.
  - simpl. by rewrite Hf', Hcached.
  - destruct (bp_function_ctor this L ar) as [func this1]. simpl.
    by rewrite Hf', lookup_insert_eq.
Qed.

(** X11.  How a function that is not in the cache is bound, by its chunk
    name.  A name that starts with [@] or [=] goes to the path converter:
    when that finds a client path the function is bound to the table of the
    path, and when it finds none [get_function] returns null, the address
    of the name is not tried.  Any other name, the empty one too, binds the
    function to the table of the address of the name. *)
Theorem get_function_resolves (this : breakpoint) (L : lua_State)
    (ar : lua_Debug) (f : Z) (source : string) (address : Z) :
  lua_getinfo_f L ar = Some f →
  functions_ this !! f = None →
  lua_getinfo_S L ar = Some (source, address) →
  (get_function this L ar).1 =
    if starts_with source "@" || starts_with source "="
    then
      if (pathconvert_get source).1
      then Some {| clientpath := (pathconvert_get source).2; sourceref := 0;
                   fn_bp := Some (by_path (pathconvert_get source).2) |}
      else None
    else Some {| clientpath := ""; sourceref := address;
                 fn_bp := Some (by_ref address) |}.
Proof.
  intros Hf Hcached Hsource. unfold get_function, bp_function_ctor.
  rewrite Hf, Hcached, Hsource.
  destruct (starts_with source "@" || starts_with source "="); [| done].
  by destruct (pathconvert_get source) as [[|] path].
Qed.

Lemma serve_functions (this : breakpoint) (r : request) :
  functions_ (serve this r) = functions_ this.
Proof.
  destruct r as [[path|ref] line info|[path|ref]|]; simpl; [| | | | done].
  - unfold add_path, get_bp_path.
    destruct (files_ this !! path); simpl; by destruct (add_source _ _ _ _).
  - unfold add_ref, get_bp_ref.
    destruct (memorys_ this !! ref); simpl; by destruct (add_source _ _ _ _).
  - unfold clear_path. by destruct (files_ this !! path).
  - unfold clear_ref. by destruct (memorys_ this !! ref).
Qed.

(** X12.  The cache only grows: a binding in it is still there, unchanged,
    after [add], after [clear] of a source, after [clear] of everything and
    after [get_function] for any function. *)
Theorem cache_never_evicts (this : breakpoint) (f : Z) (func : bp_function) :
  functions_ this !! f = Some func →
  (∀ r, functions_ (serve this r) !! f = Some func)
  ∧ (∀ L ar, functions_ (get_function this L ar).2 !! f = Some func).
Proof.
  intros Hcached. split.
  - intros r. by rewrite serve_functions.
  - intros L ar. unfold get_function.
    destruct (lua_getinfo_f L ar) as [g|]; [| done].
    destruct (functions_ this !! g) as [func'|] eqn:Hg; [done |].
    destruct (bp_function_ctor_frame this L ar) as (_ & Hfuncs & _).
    destruct (bp_function_ctor this L ar) as [func' this1]. simpl in *.
    rewrite lookup_insert_ne; [by rewrite Hfuncs | congruence].
Qed.

(** X13.  [clear] of everything leaves the cache: a function bound before
    is still answered with its binding afterwards, while the table the
    binding stands for is no longer in the store. *)
Theorem binding_outlives_clear (this : breakpoint) (L : lua_State)
    (ar : lua_Debug) (f : Z) (func : bp_function) (key : source_key) :
  lua_getinfo_f L ar = Some f →
  functions_ this !! f = Some func →
  fn_bp func = Some key →
  get_function (clear this) L ar = (Some func, clear this)
  ∧ match key with
    | by_path path => files_ (clear this) !! path = None
    | by_ref ref => memorys_ (clear this) !! ref = None
    end.
Proof.
  intros Hf Hcached Hkey. split.
  - unfold get_function. rewrite Hf. simpl. by rewrite Hcached, Hkey.
  - destruct key; apply lookup_empty.
Qed.

End CacheMore.

(** ** More about the store *)

Lemma holders_pos `{Countable K} (m : gmap K bp_source) (line : nat) :
  (0 < holders m line)%nat ↔ ∃ k bps, m !! k = Some bps ∧ is_Some (bps !! line).
Proof.
  unfold holders.
  set (P := λ entry : K * bp_source, is_Some (entry.2 !! line)).
  split.
  - intros Hpos.
    destruct (map_choose (filter P m)) as (k & bps & Hk).
    { intros Hempty. rewrite Hempty, map_size_empty in Hpos. lia. }
    apply map_lookup_filter_Some in Hk as [Hk Hline]. by exists k, bps.
  - intros (k & bps & Hk & Hline).
    assert (filter P m !! k = Some bps) as Hfk by (by apply map_lookup_filter_Some).
    destruct (size (filter P m)) eqn:Hsize; [| lia].
    apply map_size_empty_iff in Hsize. by rewrite Hsize, lookup_empty in Hfk.
Qed.

Lemma holders_le_size `{Countable K} (m : gmap K bp_source) (line : nat) :
  (holders m line ≤ size m)%nat.
Proof. unfold holders. apply map_subseteq_size, map_filter_subseteq. Qed.

Lemma tables_with_pos (this : breakpoint) (line : nat) :
  (0 < tables_with this line)%nat ↔ ∃ key, is_Some (table this key !! line).
Proof.
  split.
  - intros Hpos. unfold tables_with in Hpos.
    destruct (decide (0 < holders (files_ this) line)%nat) as [Hfiles|Hfiles].
    + apply holders_pos in Hfiles as (path & bps & Hpath & Hline).
      exists (by_path path). simpl. by rewrite Hpath.
    + assert (0 < holders (memorys_ this) line)%nat as Hmem by lia.
      apply holders_pos in Hmem as (ref & bps & Href & Hline).
      exists (by_ref ref). simpl. by rewrite Href.
  - intros [key Hline].
    pose proof (at_line_tables_with this key line) as Hle.
    unfold at_line in Hle. rewrite decide_True in Hle by done. lia.
Qed.

(** In a store that requests alone have made, no hit has been counted. *)
Lemma serve_all_hits (requests : list request) (key : source_key) (line : nat)
    (b : bp) :
  table (serve_all requests) key !! line = Some b → hit b = 0.
Proof.
  unfold serve_all. revert key line b.
  induction requests as [|r requests IH] using rev_ind; intros key line b.
  - destruct key; simpl; by rewrite lookup_empty.
  - rewrite foldl_snoc. destruct r as [key0 line0 info|key0|]; simpl.
    + rewrite add_table. destruct (decide (key = key0)) as [->|Hne]; [| apply IH].
      rewrite add_source_table.
      destruct (decide (line = line0)) as [->|Hline].
      * rewrite lookup_insert_eq. intros [= <-]. simpl.
        destruct (table _ key0 !! line0) as [old|] eqn:Hold; [| done].
        by eapply IH.
      * rewrite lookup_insert_ne by done. apply IH.
    + rewrite clear_key_table. destruct (decide (key = key0)); [| apply IH].
      by rewrite lookup_empty.
    + destruct key; simpl; by rewrite lookup_empty.
Qed.

(** X14.  [add] writes to one line of one source: the breakpoint at any
    other line, and at any line of any other source, is as before. *)
Theorem add_frame (this : breakpoint) (key key' : source_key)
    (line line' : nat) (info : bp_info) :
  (key', line') ≠ (key, line) →
  table (add this key line info) key' !! line' = table this key' !! line'.
Proof.
  intros Hne. rewrite add_table.
  destruct (decide (key' = key)) as [->|Hkey]; [| done].
  rewrite add_source_table, lookup_insert_ne; [done | congruence].
Qed.

(** X15.  [add] registers a line with the fast table once per source: the
    entry of the line is one more when the source had no breakpoint there
    and is unchanged when it had one, and the other entries are unchanged.
    The fast table grows to one more than the line when the line is new and
    beyond its end, and keeps its length otherwise. *)
Theorem add_registers_once (this : breakpoint) (key : source_key) (line : nat)
    (info : bp_info) :
  (∀ l, fast_at (fast_table_ (add this key line info)) l =
        fast_at (fast_table_ this) l
        + (if decide (l = line ∧ table this key !! line = None) then 1 else 0))
  ∧ length (fast_table_ (add this key line info)) =
      match table this key !! line with
      | Some _ => length (fast_table_ this)
      | None => max (length (fast_table_ this)) (line + 1)
      end.
Proof.
  rewrite add_fast. split.
  - intros l. rewrite add_source_fast. unfold at_line.
    destruct (table this key !! line) as [old|] eqn:Hold.
    + rewrite (decide_True (P := is_Some (Some old))) by (by eexists).
      rewrite (decide_False (P := l = line ∧ _)) by (by intros [_ ?]).
      destruct (decide (l = line)); lia.
    + rewrite (decide_False (P := is_Some None)) by (by intros [? ?]).
      destruct (decide (l = line)) as [->|Hne].
      * by rewrite decide_True by done.
      * by rewrite decide_False by (by intros [? _]).
  - unfold add_source. destruct (table this key !! line) as [old|]; [done |].
    cbn [fst]. rewrite length_alter. case_bool_decide.
    + rewrite length_resize. lia.
    + lia.
Qed.

(** X16.  [clear] of a source a second time changes nothing. *)
Theorem clear_key_idempotent (this : breakpoint) (key : source_key) :
  clear_key (clear_key this key) key = clear_key this key.
Proof.
  destruct key as [path|ref]; simpl.
  - unfold clear_path at 2. destruct (files_ this !! path) as [bps|] eqn:Hpath.
    + unfold clear_path. cbn. rewrite lookup_insert_eq. cbn.
      by rewrite Hpath, map_to_list_empty, insert_insert_eq.
    + unfold clear_path. by rewrite Hpath.
  - unfold clear_ref at 2. destruct (memorys_ this !! ref) as [bps|] eqn:Href.
    + unfold clear_ref. cbn. rewrite lookup_insert_eq. cbn.
      by rewrite Href, map_to_list_empty, insert_insert_eq.
    + unfold clear_ref. by rewrite Href.
Qed.

(** X17.  In a store made by requests, [add] to a source and then [clear]
    of that source leave every entry of the fast table as [clear] of the
    source alone does: the registration of the added line is taken back. *)
Theorem add_clear_key_counts (requests : list request) (key : source_key)
    (line : nat) (info : bp_info) (l : nat) :
  fast_at (fast_table_ (clear_key (add (serve_all requests) key line info) key)) l =
  fast_at (fast_table_ (clear_key (serve_all requests) key)) l.
Proof.
  pose proof (fast_counts_serve_all requests) as Hcounts.
  pose proof (fast_counts_add _ key line info Hcounts) as Hcounts'.
  pose proof (fast_counts_clear_key _ key Hcounts l) as ->.
  pose proof (fast_counts_clear_key _ key Hcounts' l) as ->.
  rewrite !clear_key_tables_with, add_tables_with.
  rewrite add_table, decide_True by done. lia.
Qed.

(** X18.  [clear] of a source forgets its hit counts: a breakpoint added to
    the source afterwards starts with hit count 0, whatever was at its line
    before. *)
Theorem clear_key_resets_hit (this : breakpoint) (key : source_key)
    (line : nat) (info : bp_info) :
  table (add (clear_key this key) key line info) key !! line =
  Some (bp_ctor info 0).
Proof.
  rewrite add_table, decide_True by done.
  rewrite add_source_table, clear_key_table, decide_True by done.
  by rewrite lookup_empty, lookup_insert_eq.
Qed.

(** X19.  In a store made by requests the gate of [has] is open at a line
    exactly when some source has a breakpoint at the line: the line is then
    within the fast table and its entry is not 0, and otherwise the entry,
    or its absence, closes the gate. *)
Theorem gate_open_iff_breakpoint (requests : list request) (line : nat) :
  ((line < length (fast_table_ (serve_all requests)))%nat
   ∧ fast_at (fast_table_ (serve_all requests)) line ≠ 0)
  ↔ ∃ key, is_Some (table (serve_all requests) key !! line).
Proof.
  pose proof (fast_counts_serve_all requests line) as Hcount.
  rewrite <- tables_with_pos. split.
  - intros [_ Hne]. lia.
  - intros Hpos. assert (fast_at (fast_table_ (serve_all requests)) line ≠ 0)
      as Hne by lia.
    split; [by apply fast_at_lt | done].
Qed.

(** X20.  In a store made by requests no entry of the fast table is
    negative, and none is more than the number of tables in the store. *)
Theorem fast_table_entries_bounded (requests : list request) (line : nat) :
  0 ≤ fast_at (fast_table_ (serve_all requests)) line
    ≤ Z.of_nat (size (files_ (serve_all requests))
                + size (memorys_ (serve_all requests))).
Proof.
  rewrite (fast_counts_serve_all requests line). unfold tables_with.
  pose proof (holders_le_size (files_ (serve_all requests)) line).
  pose proof (holders_le_size (memorys_ (serve_all requests)) line).
  lia.
Qed.

Section StoreMore.
Context `{Host}.

(** X21.  After [clear] of everything [has] answers false at every line,
    for every table it is given, and after [clear] of a source it answers
    false at every line for the table of that source; in both cases nothing
    is evaluated, counted or put out. *)
Theorem clear_then_has_rejects (this : breakpoint) (src : bp_source)
    (key : source_key) (line : nat) (L : lua_State) (ar : lua_Debug) :
  has (clear this) src line L ar =
    {| has_ret := Normal false; has_src := src; has_output := []; has_L := L |}
  ∧ has (clear_key this key) (table (clear_key this key) key) line L ar =
      {| has_ret := Normal false; has_src := ∅; has_output := []; has_L := L |}.
Proof.
  split.
  - apply has_closed. by left.
  - rewrite clear_key_table, decide_True by done.
    apply has_closed. right. apply lookup_empty.
Qed.

(** X22.  In a store made by requests, a breakpoint added without a
    condition, a hit condition and a log message pauses at its first hit:
    [has] on the table of its source returns true at its line, the hit
    count is 1 afterwards, nothing is evaluated and nothing is put out. *)
Theorem add_then_has_pauses (requests : list request) (key : source_key)
    (line : nat) (info : bp_info) (L : lua_State) (ar : lua_Debug) :
  default "" (condition info) = "" →
  default "" (hitCondition info) = "" →
  logMessage info = None →
  has (add (serve_all requests) key line info)
      (table (add (serve_all requests) key line info) key) line L ar =
    {| has_ret := Normal true;
       has_src := <[line := bp_ctor info 1]>
                    (table (add (serve_all requests) key line info) key);
       has_output := [];
       has_L := L |}.
Proof.
  intros Hcond Hhit Hlog.
  pose proof (fast_counts_add _ key line info (fast_counts_serve_all requests))
    as Hcounts.
  assert (table (add (serve_all requests) key line info) key !! line
          = Some (bp_ctor info 0)) as Hb.
  { rewrite add_table, decide_True by done.
    rewrite add_source_table, lookup_insert_eq.
    destruct (table (serve_all requests) key !! line) as [old|] eqn:Hold; [| done].
    by rewrite (serve_all_hits _ _ _ _ Hold). }
  assert (fast_at (fast_table_ (add (serve_all requests) key line info)) line ≠ 0)
    as Hfast.
  { rewrite (Hcounts line).
    pose proof (at_line_tables_with (add (serve_all requests) key line info)
                  key line) as Hle.
    unfold at_line in Hle. rewrite decide_True in Hle by (by eexists). lia. }
  rewrite (has_open _ _ _ _ _ _ (fast_at_lt _ _ Hfast) Hfast Hb).
  unfold cond_stage, hitcond_stage. simpl. rewrite Hcond, Hhit, Hlog. done.
Qed.

End StoreMore.

(** ** Hits in a row, and the tables behind the bindings *)

Section HitsMore.
Context `{Host}.

(** X23.  A breakpoint without condition, hit condition and log message
    counts every hit: after [n] calls of [has] at its line, each on the
    table the call before left, its hit count is [n] more, as long as that
    is within the range of [int]. *)
Theorem has_counts_every_hit (this : breakpoint) (src : bp_source)
    (line : nat) (L : lua_State) (ar : lua_Debug) (b : bp) (n : nat) :
  (line < length (fast_table_ this))%nat →
  fast_at (fast_table_ this) line ≠ 0 →
  src !! line = Some b →
  empty (cond b) = true →
  empty (hitcond b) = true →
  empty (log b) = true →
  INT_MIN ≤ hit b →
  hit b + Z.of_nat n ≤ INT_MAX →
  Nat.iter n (λ s, has_src (has this s line L ar)) src !! line =
    Some {| cond := cond b; hitcond := hitcond b; log := log b;
            hit := hit b + Z.of_nat n |}.
Proof.
  intros Hlen Hfast Hb Hcond Hhit Hlog Hmin.
  induction n as [|n IH]; intros Hmax.
  - simpl. rewrite Hb, Z.add_0_r. by destruct b.
  - rewrite Nat.iter_succ.
    rewrite (has_open this _ line L ar _ Hlen Hfast (IH ltac:(lia))).
    unfold cond_stage, hitcond_stage. simpl. rewrite Hcond, Hhit, Hlog. simpl.
    rewrite lookup_insert_eq. unfold hit_incr. simpl.
    rewrite int_wrap_id by lia. do 2 f_equal. lia.
Qed.

End HitsMore.

Lemma present_serve (this : breakpoint) (r : request) (key : source_key) :
  r ≠ req_clear_all →
  present this key → present (serve this r) key.
Proof.
  intros Hr. destruct r as [key0 line info|key0|].
  - simpl. destruct key as [path|ref]; simpl.
    + rewrite add_files. destruct key0 as [path0|ref0]; [| done].
      rewrite lookup_insert. case_decide; [by eexists | done].
    + rewrite add_memorys. destruct key0 as [path0|ref0]; [done |].
      rewrite lookup_insert. case_decide; [by eexists | done].
  - simpl. destruct key0 as [path0|ref0], key as [path|ref]; simpl.
    + unfold clear_path. destruct (files_ this !! path0); [| done]. cbn.
      rewrite lookup_insert. case_decide; [by eexists | done].
    + unfold clear_path. by destruct (files_ this !! path0).
    + unfold clear_ref. by destruct (memorys_ this !! ref0).
    + unfold clear_ref. destruct (memorys_ this !! ref0); [| done]. cbn.
      rewrite lookup_insert. case_decide; [by eexists | done].
  - done.
Qed.

Section AliveMore.
Context `{Host}.

Lemma bp_function_ctor_present (this : breakpoint) (L : lua_State)
    (ar : lua_Debug) :
  (∀ key, present this key → present (bp_function_ctor this L ar).2 key)
  ∧ (∀ key, fn_bp (bp_function_ctor this L ar).1 = Some key →
            present (bp_function_ctor this L ar).2 key).
Proof.
  unfold bp_function_ctor.
  destruct (lua_getinfo_S L ar) as [[source address]|]; [| done].
  destruct (starts_with source "@" || starts_with source "=").
  - destruct (pathconvert_get source) as [[|] path]; [| done].
    unfold get_bp_path.
    destruct (files_ this !! path) as [bps|] eqn:Hpath; cbn.
    + split; [done |]. intros key [= <-]. simpl. by rewrite Hpath.
    + split.
      * intros [path'|ref]; simpl; [| done].
        rewrite lookup_insert. case_decide; [by eexists | done].
      * intros key [= <-]. simpl. rewrite lookup_insert_eq. by eexists.
  - unfold get_bp_ref.
    destruct (memorys_ this !! address) as [bps|] eqn:Href; cbn.
    + split; [done |]. intros key [= <-]. simpl. by rewrite Href.
    + split.
      * intros [path|ref]; simpl; [done |].
        rewrite lookup_insert. case_decide; [by eexists | done].
      * intros key [= <-]. simpl. rewrite lookup_insert_eq. by eexists.
Qed.

(** X24.  The tables behind the bindings stay in the store: when every
    bound binding of the cache stands for a table the store holds, this is
    still so after [add], after [clear] of a source, which empties the
    table and keeps it, and after [get_function], which makes the table it
    binds to when the store has none. *)
Theorem bindings_stay_alive (this : breakpoint) :
  bindings_alive this →
  (∀ key line info, bindings_alive (add this key line info))
  ∧ (∀ key, bindings_alive (clear_key this key))
  ∧ (∀ L ar, bindings_alive (get_function this L ar).2).
Proof.
  intros Halive. split_and!.
  - intros key line info f func key' Hf Hkey.
    change (add this key line info) with (serve this (req_add key line info)) in *.
    rewrite serve_functions in Hf.
    apply present_serve; [done | by eapply Halive].
  - intros key f func key' Hf Hkey.
    change (clear_key this key) with (serve this (req_clear key)) in *.
    rewrite serve_functions in Hf.
    apply present_serve; [done | by eapply Halive].
  - intros L ar f func key. unfold get_function.
    destruct (lua_getinfo_f L ar) as [g|]; [| apply Halive].
    destruct (functions_ this !! g) as [func'|] eqn:Hg; [apply Halive |].
    destruct (bp_function_ctor_frame this L ar) as (_ & Hfuncs & _).
    destruct (bp_function_ctor_present this L ar) as [Hmono Hnew].
    destruct (bp_function_ctor this L ar) as [func' this1]. simpl in *.
    intros Hf Hkey. destruct (decide (f = g)) as [->|Hne].
    + rewrite lookup_insert_eq in Hf. injection Hf as ->.
      specialize (Hnew key Hkey). by destruct key.
    + rewrite lookup_insert_ne, Hfuncs in Hf by done.
      pose proof (Hmono key (Halive f func key Hf Hkey)). by destruct key.
Qed.

End AliveMore.

(** ** The engine on concrete inputs *)

Module Scenarios.
Import Scripted.

(** C1, the claim as stated fails: for the log message x={x} with [x] 42,
    the text on stdout is x=42 with a newline behind it, not x=42. *)
Lemma log_message_newline_counterexample :
  has_output (has (H := x_is_42) (store (with_log "x={x}"))
                (table (store (with_log "x={x}")) foo) 5 [] no_frame)
    = [("stdout", "x=42" +:+ newline)]
  ∧ has_output (has (H := x_is_42) (store (with_log "x={x}"))
                  (table (store (with_log "x={x}")) foo) 5 [] no_frame)
    ≠ [("stdout", "x=42")].
Proof. split; [by vm_compute | by vm_compute]. Qed.

Lemma has_emits_log_message_witness :
  has_ret (has (H := x_is_42) (store (with_log "x={x}"))
             (table (store (with_log "x={x}")) foo) 5 [] no_frame)
    = Normal false
  ∧ has_output (has (H := x_is_42) (store (with_log "x={x}"))
                  (table (store (with_log "x={x}")) foo) 5 [] no_frame)
    = [("stdout", "x=42" +:+ newline)].
Proof.
  destruct (has_emits_log_message (H := x_is_42) (store (with_log "x={x}"))
              (table (store (with_log "x={x}")) foo) 5 [] [] [] no_frame
              (with_log "x={x}") 0 "x={x}") as (Hret & _ & Htext).
  - vm_compute. lia.
  - vm_compute. discriminate.
  - vm_compute. reflexivity.
  - reflexivity.
  - reflexivity.
  - reflexivity.
  - split; [exact Hret |].
    apply (Htext "x=42" ["return tostring(x)"]). vm_compute. reflexivity.
Defined.

(** C2, the claim as stated fails: resolved against a new store, a function
    of foo.lua is bound to the table of foo.lua, which is empty, and the
    binding is returned all the same. *)
Lemma get_function_empty_table_counterexample :
  (get_function (H := x_is_42) new_breakpoint [] frame_in_foo).1
    = Some {| clientpath := "foo.lua"; sourceref := 0; fn_bp := Some foo |}
  ∧ table (get_function (H := x_is_42) new_breakpoint [] frame_in_foo).2 foo = ∅.
Proof. split; by vm_compute. Qed.

Lemma get_function_returns_bound_witness :
  ∃ func,
    functions_ (get_function (H := x_is_42) new_breakpoint [] frame_in_foo).2 !! 1
      = Some func
    ∧ (get_function (H := x_is_42) new_breakpoint [] frame_in_foo).1 =
        match fn_bp func with Some _ => Some func | None => None end.
Proof.
  destruct (get_function_returns_bound (H := x_is_42) new_breakpoint []
              frame_in_foo 1) as (func & Hcached & Hret & _).
  - reflexivity.
  - exists func. split; [exact Hcached | exact Hret].
Defined.

(** C3, the claim as stated fails: for a function whose source descriptor
    is not available, a binding is added to the cache, and a later call for
    that function, made when the descriptor is available, returns null
    without resolving it, where a fresh resolution returns a binding. *)
Lemma get_function_caches_unresolved_counterexample :
  (get_function (H := x_is_42) new_breakpoint [] frame_without_source).1 = None
  ∧ functions_ (get_function (H := x_is_42) new_breakpoint []
                  frame_without_source).2 !! 7
    = Some {| clientpath := ""; sourceref := 0; fn_bp := None |}
  ∧ functions_ new_breakpoint !! 7 = None
  ∧ (get_function (H := x_is_42)
       (get_function (H := x_is_42) new_breakpoint [] frame_without_source).2
       [] frame_seven_in_foo).1 = None
  ∧ (get_function (H := x_is_42) new_breakpoint [] frame_seven_in_foo).1 ≠ None.
Proof. split_and!; by vm_compute. Qed.

Lemma get_function_unavailable_witness :
  get_function (H := x_is_42) (store plain) [] no_frame = (None, store plain)
  ∧ (get_function (H := x_is_42) new_breakpoint [] frame_without_source).1 = None
  ∧ get_function (H := x_is_42)
      (get_function (H := x_is_42) new_breakpoint [] frame_without_source).2
      [] frame_seven_in_foo
    = (None, (get_function (H := x_is_42) new_breakpoint []
                frame_without_source).2).
Proof.
  split.
  - apply (proj1 (get_function_unavailable (H := x_is_42) (store plain) []
                    no_frame)).
    reflexivity.
  - destruct (proj2 (get_function_unavailable (H := x_is_42) new_breakpoint []
                       frame_without_source) 7) as (Hret & _ & Hlater).
    + reflexivity.
    + reflexivity.
    + reflexivity.
    + split; [exact Hret |]. apply Hlater. reflexivity.
Defined.

(** C4, the claim as stated fails: in a{y}b the evaluation of [y] fails, and
    the text is ab, not the description of the failure. *)
Lemma evaluate_log_failure_counterexample :
  (evaluate (Host := y_fails) [] no_frame "return tostring(y)").1
    = EvalError "attempt to index a nil value"
  ∧ (evaluate_log (H := y_fails) [] no_frame "a{y}b").1 = "ab"
  ∧ (evaluate_log (H := y_fails) [] no_frame "a{y}b").1
    ≠ "attempt to index a nil value".
Proof. split_and!; by vm_compute. Qed.

Lemma evaluate_log_failure_witness :
  evaluate_log_try (H := y_fails) [] no_frame "a{y}b" =
    prepend "a" (evaluate_log_try (H := y_fails) ["return tostring(y)"]
                   no_frame "b").
Proof.
  apply (proj1 (evaluate_log_failure (H := y_fails) [] ["return tostring(y)"]
                  no_frame "a" "y" "b" "attempt to index a nil value"
                  eq_refl eq_refl eq_refl)).
Defined.

(** The condition x>1 where [x] is 0, and where [x] is 42. *)
Lemma has_condition_witness :
  has (H := x_is_0) (store (with_condition "x>1"))
      (table (store (with_condition "x>1")) foo) 5 [] no_frame
    = {| has_ret := Normal false;
         has_src := table (store (with_condition "x>1")) foo;
         has_output := [];
         has_L := (["return x>1"] : @lua_State x_is_0) |}
  ∧ ∃ b', has_src (has (H := x_is_42) (store (with_condition "x>1"))
                     (table (store (with_condition "x>1")) foo) 5 []
                     no_frame) !! 5%nat = Some b'
          ∧ hit b' = 1.
Proof.
  split.
  - apply (proj1 (has_condition (H := x_is_0) (store (with_condition "x>1"))
                    (table (store (with_condition "x>1")) foo) 5 []
                    ["return x>1"] no_frame (bp_ctor (with_condition "x>1") 0)
                    (EvalOk [LuaBoolean false])
                    ltac:(vm_compute; lia) ltac:(vm_compute; discriminate)
                    ltac:(vm_compute; reflexivity)
                    ltac:(vm_compute; split; [discriminate | reflexivity]) eq_refl)).
    + reflexivity.
    + discriminate.
    + reflexivity.
  - destruct (proj2 (proj2 (has_condition (H := x_is_42)
                    (store (with_condition "x>1"))
                    (table (store (with_condition "x>1")) foo) 5 []
                    ["return x>1"] no_frame (bp_ctor (with_condition "x>1") 0)
                    (EvalOk [LuaBoolean true])
                    ltac:(vm_compute; lia) ltac:(vm_compute; discriminate)
                    ltac:(vm_compute; reflexivity)
                    ltac:(vm_compute; split; [discriminate | reflexivity]) eq_refl))
                (or_intror eq_refl)) as (b' & Hb' & Hhit & _).
    exists b'. split; [exact Hb' | exact Hhit].
Defined.


(** The hit condition >=2: the first hit counts and does not pause, the
    second one pauses. *)
Lemma has_hit_condition_witness :
  let first := has (H := counting) (store (with_hit_condition ">=2"))
                 (table (store (with_hit_condition ">=2")) foo) 5 [] no_frame in
  let second := has (H := counting) (store (with_hit_condition ">=2"))
                  (has_src first) 5 (has_L first) no_frame in
  (has_ret first = Normal false
   ∧ ∃ b', has_src first !! 5%nat = Some b' ∧ hit b' = 1)
  ∧ (has_ret second = Normal true
     ∧ ∃ b', has_src second !! 5%nat = Some b' ∧ hit b' = 2).
Proof.
  intros first second. split.
  - destruct (has_hit_condition (H := counting)
                (store (with_hit_condition ">=2"))
                (table (store (with_hit_condition ">=2")) foo) 5 [] []
                ["return 1 >=2"] no_frame
                (bp_ctor (with_hit_condition ">=2") 0)
                (EvalOk [LuaBoolean false])
                ltac:(vm_compute; lia) ltac:(vm_compute; discriminate)
                ltac:(vm_compute; reflexivity)
                ltac:(vm_compute; split; [discriminate | reflexivity])
                eq_refl eq_refl eq_refl ltac:(discriminate))
      as (Hcount & Hfalse & _).
    split; [exact (proj1 (Hfalse eq_refl)) | exact Hcount].
  - destruct (has_hit_condition (H := counting)
                (store (with_hit_condition ">=2"))
                (has_src first) 5 ["return 1 >=2"] ["return 1 >=2"]
                ["return 1 >=2"; "return 2 >=2"] no_frame
                (hit_incr (bp_ctor (with_hit_condition ">=2") 0))
                (EvalOk [LuaBoolean true])
                ltac:(vm_compute; lia) ltac:(vm_compute; discriminate)
                ltac:(vm_compute; reflexivity)
                ltac:(vm_compute; split; [discriminate | reflexivity])
                eq_refl eq_refl eq_refl ltac:(discriminate))
      as (Hcount & _ & Htrue).
    split; [exact (proj1 (Htrue eq_refl eq_refl)) | exact Hcount].
Defined.

(** [clear] of foo.lua in a store with breakpoints at line 5 of foo.lua and
    of a chunk in memory, after a hit on the latter and the resolution of a
    function: the hit that was counted and the binding are still there. *)
Lemma clear_key_frame_witness :
  table (clear_key ScriptedMore.two_sources_hit foo) foo = ∅
  ∧ table (clear_key ScriptedMore.two_sources_hit foo) bar !! 5%nat
    = Some (bp_ctor plain 1)
  ∧ functions_ (clear_key ScriptedMore.two_sources_hit foo) !! 1
    = Some {| clientpath := "foo.lua"; sourceref := 0; fn_bp := Some foo |}
  ∧ has (H := x_is_42) (clear_key ScriptedMore.two_sources_hit foo)
      (table (clear_key ScriptedMore.two_sources_hit foo) bar) 5 [] no_frame
    = has (H := x_is_42) ScriptedMore.two_sources_hit
        (table ScriptedMore.two_sources_hit bar) 5 [] no_frame.
Proof.
  destruct (clear_key_frame (H := x_is_42) ScriptedMore.two_sources_hit
              foo bar 5
              (fast_counts_get_function _ _ _
                 (fast_counts_has (H := x_is_42) _ bar 5 [] no_frame
                    (fast_counts_serve_all two_sources)))
              ltac:(discriminate)
              ltac:(vm_compute; eexists; reflexivity)
              ltac:(vm_compute; eexists; reflexivity))
    as (Hempty & Hother & _ & Hcache & _ & Hhas).
  split; [exact Hempty |].
  split; [rewrite Hother; vm_compute; reflexivity |].
  split; [rewrite Hcache; vm_compute; reflexivity |].
  apply Hhas.
Defined.

(** An opening brace that is never closed, behind a segment. *)
Lemma evaluate_log_braces_witness :
  evaluate_log_try (H := x_is_42) [] no_frame ("x={x}" +:+ String "{" "x")
    = extend (evaluate_log_try (H := x_is_42) [] no_frame "x={x}")
        (String "{" "x")
  ∧ evaluate_log (H := x_is_42) [] no_frame "x={x" = ("x={x", []).
Proof.
  destruct (evaluate_log_braces (H := x_is_42) [] no_frame)
    as (Htail & Hliteral & _).
  split; [apply Htail; reflexivity | apply Hliteral; reflexivity].
Defined.

End Scenarios.

(** ** More of the engine on concrete inputs *)

Module MoreScenarios.
Import Scripted ScriptedMore.

Lemma has_unconditional_witness :
  has_ret (has (H := x_is_42) (store plain) (table (store plain) foo) 5 []
             no_frame) = Normal true.
Proof.
  rewrite (has_unconditional (H := x_is_42) (store plain)
             (table (store plain) foo) 5 [] no_frame (bp_ctor plain 0)
             ltac:(vm_compute; lia) ltac:(vm_compute; discriminate)
             ltac:(vm_compute; reflexivity) eq_refl eq_refl eq_refl).
  reflexivity.
Defined.

Lemma has_pause_is_silent_witness :
  has_output (has (H := x_is_42) (store plain) (table (store plain) foo) 5 []
                no_frame) = [].
Proof.
  exact (proj1 (has_pause_is_silent (H := x_is_42) (store plain)
                  (table (store plain) foo) 5 [] no_frame
                  ltac:(vm_compute; reflexivity))).
Defined.

(** The empty log message makes a logpoint too. *)
Lemma has_log_message_never_pauses_witness :
  has_ret (has (H := x_is_42) (store (with_log ""))
             (table (store (with_log "")) foo) 5 [] no_frame) ≠ Normal true.
Proof.
  exact (has_log_message_never_pauses (H := x_is_42) (store (with_log ""))
           (table (store (with_log "")) foo) 5 [] no_frame (with_log "") 0 ""
           ltac:(vm_compute; reflexivity) eq_refl).
Defined.

Lemma evaluate_log_segment_witness :
  evaluate_log_try (H := x_is_42) [] no_frame "x={x}!" =
    prepend ("x=" +:+ "42")
      (evaluate_log_try (H := x_is_42) ["return tostring(x)"] no_frame "!").
Proof.
  exact (evaluate_log_segment (H := x_is_42) [] ["return tostring(x)"] no_frame
           "x=" "x" "!" [LuaString "42"] eq_refl eq_refl eq_refl).
Defined.

Lemma evaluate_log_literal_prefix_witness :
  evaluate_log_try (H := x_is_42) [] no_frame ("x=" +:+ "{x}") =
    prepend "x=" (evaluate_log_try (H := x_is_42) [] no_frame "{x}").
Proof.
  exact (evaluate_log_literal_prefix (H := x_is_42) [] no_frame "x=" "{x}"
           eq_refl).
Defined.

Lemma evaluate_log_exception_witness :
  evaluate_log (H := z_throws) [] no_frame "a{z}b" =
    ("bad allocation", ["return tostring(z)"]).
Proof.
  exact (evaluate_log_exception (H := z_throws) [] ["return tostring(z)"]
           no_frame "a" "z" "b" "bad allocation" eq_refl eq_refl eq_refl).
Defined.

Lemma get_function_cached_witness :
  get_function (H := x_is_42)
    (get_function (H := x_is_42) new_breakpoint [] frame_without_source).2
    [] frame_seven_in_foo
  = get_function (H := x_is_42) new_breakpoint [] frame_without_source.
Proof.
  exact (get_function_cached (H := x_is_42) new_breakpoint [] []
           frame_without_source frame_seven_in_foo 7 eq_refl eq_refl).
Defined.

Lemma get_function_resolves_witness :
  (get_function (H := x_is_42) new_breakpoint [] frame_in_foo).1 =
    Some {| clientpath := "foo.lua"; sourceref := 0; fn_bp := Some foo |}
  ∧ (get_function (H := x_is_42) new_breakpoint [] frame_unconverted).1 = None
  ∧ (get_function (H := x_is_42) new_breakpoint [] frame_in_memory).1 =
      Some {| clientpath := ""; sourceref := 4096; fn_bp := Some bar |}.
Proof.
  split_and!.
  - rewrite (get_function_resolves (H := x_is_42) new_breakpoint []
               frame_in_foo 1 "@foo.lua" 4096 eq_refl eq_refl eq_refl).
    reflexivity.
  - rewrite (get_function_resolves (H := x_is_42) new_breakpoint []
               frame_unconverted 2 "=stdin" 8192 eq_refl eq_refl eq_refl).
    reflexivity.
  - rewrite (get_function_resolves (H := x_is_42) new_breakpoint []
               frame_in_memory 3 "return 1" 4096 eq_refl eq_refl eq_refl).
    reflexivity.
Defined.

Lemma cache_never_evicts_witness :
  functions_ (serve (get_function (H := x_is_42) new_breakpoint []
                       frame_in_foo).2 req_clear_all) !! 1
  = Some {| clientpath := "foo.lua"; sourceref := 0; fn_bp := Some foo |}.
Proof.
  exact (proj1 (cache_never_evicts (H := x_is_42)
                  (get_function (H := x_is_42) new_breakpoint []
                     frame_in_foo).2
                  1 {| clientpath := "foo.lua"; sourceref := 0;
                       fn_bp := Some foo |}
                  ltac:(vm_compute; reflexivity)) req_clear_all).
Defined.

Lemma binding_outlives_clear_witness :
  get_function (H := x_is_42)
    (clear (get_function (H := x_is_42) new_breakpoint [] frame_in_foo).2)
    [] frame_in_foo
  = (Some {| clientpath := "foo.lua"; sourceref := 0; fn_bp := Some foo |},
     clear (get_function (H := x_is_42) new_breakpoint [] frame_in_foo).2)
  ∧ files_ (clear (get_function (H := x_is_42) new_breakpoint []
                     frame_in_foo).2) !! "foo.lua" = None.
Proof.
  exact (binding_outlives_clear (H := x_is_42)
           (get_function (H := x_is_42) new_breakpoint [] frame_in_foo).2
           [] frame_in_foo 1
           {| clientpath := "foo.lua"; sourceref := 0; fn_bp := Some foo |}
           foo eq_refl ltac:(vm_compute; reflexivity) eq_refl).
Defined.

Lemma add_frame_witness :
  table (add (store plain) bar 5 (with_condition "x>1")) foo !! 5%nat =
  table (store plain) foo !! 5%nat.
Proof.
  exact (add_frame (store plain) bar foo 5 5 (with_condition "x>1")
           ltac:(discriminate)).
Defined.

Lemma add_then_has_pauses_witness :
  has_ret (has (H := x_is_42) (add (serve_all two_sources) foo 7 plain)
             (table (add (serve_all two_sources) foo 7 plain) foo) 7 []
             no_frame) = Normal true.
Proof.
  rewrite (add_then_has_pauses (H := x_is_42) two_sources foo 7 plain []
             no_frame eq_refl eq_refl eq_refl).
  reflexivity.
Defined.

Lemma has_counts_every_hit_witness :
  Nat.iter 3 (λ s, has_src (has (H := x_is_42) (store plain) s 5 [] no_frame))
    (table (store plain) foo) !! 5%nat
  = Some {| cond := ""; hitcond := ""; log := ""; hit := 0 + Z.of_nat 3 |}.
Proof.
  exact (has_counts_every_hit (H := x_is_42) (store plain)
           (table (store plain) foo) 5 [] no_frame (bp_ctor plain 0) 3
           ltac:(vm_compute; lia) ltac:(vm_compute; discriminate)
           ltac:(vm_compute; reflexivity) eq_refl eq_refl eq_refl
           ltac:(vm_compute; discriminate) ltac:(vm_compute; discriminate)).
Defined.

Lemma bindings_stay_alive_witness :
  bindings_alive (get_function (H := x_is_42) new_breakpoint [] frame_in_foo).2.
Proof.
  apply (bindings_stay_alive (H := x_is_42) new_breakpoint).
  intros f func key Hf. vm_compute in Hf. discriminate.
Defined.

End MoreScenarios.
